(** * histogram_utils.py: colour and gradient-orientation histograms

    A shallow embedding of [src/histogram_utils.py] and the properties of
    its functions.

    Numbers.  numpy's float arrays are modelled by exact rationals ([Qc],
    the canonical rationals, so that equality is Leibniz equality): sums,
    products and quotients are the exact ones and rounding is outside the
    model.  What exact arithmetic cannot express is kept apart: a division
    by zero raises [ZeroDivisionError] on Python scalars and yields
    [NaN] / infinities on numpy arrays ([npfloat]).  Python integers are
    [Z], lengths and array dimensions are [nat].

    Exceptions.  A function that can raise returns a [result]; the
    exception carries the arguments the source formats into its message.

    Arrays.  An array is its shape together with its cells in row-major
    (C) order. *)

From Stdlib Require Import ZArith QArith Qcanon Qround Qcabs.
From stdpp Require Import base numbers list option gmap strings.

Local Open Scope Qc_scope.

(** ** Exceptions and results *)

(** The [ValueError]s of the module, one constructor per raise site, with
    the values formatted into the message. *)
Inductive value_error : Type :=
  | MaxOfEmptySequence
      (* max() arg is an empty sequence *)
  | MaxChannelRequested (requested : Z) (image_shape0 : nat)
      (* "Max channel requested ({}) is larger than channels in image: {}" *)
  | ChannelsBinsLength (n_channels n_bins : nat)
      (* "Length of channels ({}) does not equal length of bins ({}):" *)
  | RangeSize (n_ranges expected : nat)
      (* "Size of range ({}) is not appropriate size ({})." *)
  | MaskShape (mask_shape image_shape : list nat)
      (* "Shape of mask ({}) not same shape as image ({})" *)
  | HistogramSizes (len_a len_b : nat)
      (* "Histogram A (len:{}) and Histogram B (len:{}) are not same size" *)
  | ShapesNotAligned (len_a len_b : nat)
      (* numpy: shapes not aligned (np.dot) *)
  | CannotBroadcast (shape_a shape_b : list nat)
      (* numpy: operands could not be broadcast together *)
  | NegativeDimensions
      (* numpy: negative dimensions are not allowed *)
  | ZeroSizeReduction
      (* numpy: zero-size array to reduction operation maximum *).

Inductive exn : Type :=
  | ValueError (what : value_error)
  | ZeroDivisionError
  | IndexError
  | KeyError (key : nat)
  | TypeError.

Inductive result (A : Type) : Type :=
  | Ok (a : A)
  | Raise (e : exn).
Arguments Ok {A} a.
Arguments Raise {A} e.

#[global] Instance value_error_eq_dec : EqDecision value_error.
Proof. solve_decision. Defined.
#[global] Instance exn_eq_dec : EqDecision exn.
Proof. solve_decision. Defined.
#[global] Instance result_eq_dec `{EqDecision A} : EqDecision (result A).
Proof. solve_decision. Defined.

Definition rbind {A B : Type} (r : result A) (k : A -> result B) : result B :=
  match r with
  | Ok a => k a
  | Raise e => Raise e
  end.

Declare Scope result_scope.
Delimit Scope result_scope with result.
Notation "x <- r ; k" := (rbind r (fun x => k))
  (at level 100, r at next level, right associativity) : result_scope.
Notation "r ;; k" := (rbind r (fun _ => k))
  (at level 100, right associativity) : result_scope.

(** The spec's error taxonomy, read on the exceptions of the code: the
    validator's four raise sites are [InvalidArgument], the length check of
    the weighted intersection is [ShapeMismatch]. *)
Definition InvalidArgument (e : exn) : Prop :=
  match e with
  | ValueError (MaxChannelRequested _ _)
  | ValueError (ChannelsBinsLength _ _)
  | ValueError (RangeSize _ _)
  | ValueError (MaskShape _ _) => True
  | _ => False
  end.

Definition ShapeMismatch (e : exn) : Prop :=
  match e with
  | ValueError (HistogramSizes _ _) => True
  | _ => False
  end.

(** ** Numbers *)

(** A cell of a numpy float array after a division. *)
Inductive npfloat : Type :=
  | Fin (q : Qc)
  | PosInf
  | NegInf
  | NaN.

#[global] Instance npfloat_eq_dec : EqDecision npfloat.
Proof. solve_decision. Defined.

(** [x / n] on numpy floats: a zero divisor gives [nan] or an infinity
    (and a warning), never an exception. *)
Definition np_true_divide (x n : Qc) : npfloat :=
  if decide (n = 0) then
    if decide (x = 0) then NaN
    else if decide (0 < x) then PosInf else NegInf
  else Fin (x / n).

(** [x / y] on Python scalars with a float numerator. *)
Definition py_float_div (x y : Qc) : result Qc :=
  if decide (y = 0) then Raise ZeroDivisionError else Ok (x / y).

(** [(a > b).astype(int)] on one cell. *)
Definition gt_int (a b : Qc) : Z := if decide (b < a) then 1%Z else 0%Z.
Definition lt_int (a b : Qc) : Z := gt_int b a.

#[global] Instance Qc_inhabited : Inhabited Qc := populate 0.

Definition Qcsum (l : list Qc) : Qc := foldr Qcplus 0 l.
#[global] Arguments Qcsum : simpl never.

(** [np.linalg.norm(v, ord=1)]: the sum of the absolute values. *)
Definition norm1 (v : list Qc) : Qc := Qcsum (map Qcabs v).

(** ** Arrays *)

(** An n-dimensional float array: shape and cells in row-major order. *)
Record ndarray : Type := NdArray {
  nd_shape : list nat;
  nd_data : list Qc
}.

#[global] Instance ndarray_eq_dec : EqDecision ndarray.
Proof. solve_decision. Defined.

(** [a.flatten()] *)
Definition flatten (a : ndarray) : list Qc := nd_data a.

(** A 2-dimensional array [(rows, cols)]. *)
Record array2 (A : Type) : Type := Array2 {
  rows2 : nat;
  cols2 : nat;
  cells2 : list A
}.
Arguments Array2 {A} _ _ _.
Arguments rows2 {A} _.
Arguments cols2 {A} _.
Arguments cells2 {A} _.

(** A 3-dimensional array [(rows, cols, channels)]; the cell
    [(r, c, k)] is at position [(r * cols + c) * channels + k]. *)
Record array3 (A : Type) : Type := Array3 {
  dim0 : nat;
  dim1 : nat;
  dim2 : nat;
  cells3 : list A
}.
Arguments Array3 {A} _ _ _ _.
Arguments dim0 {A} _.
Arguments dim1 {A} _.
Arguments dim2 {A} _.
Arguments cells3 {A} _.

#[global] Instance array2_eq_dec `{EqDecision A} : EqDecision (array2 A).
Proof. solve_decision. Defined.
#[global] Instance array3_eq_dec `{EqDecision A} : EqDecision (array3 A).
Proof. solve_decision. Defined.

Definition shape2 {A} (a : array2 A) : list nat := [rows2 a; cols2 a].
Definition shape3 {A} (a : array3 A) : list nat := [dim0 a; dim1 a; dim2 a].

Definition wf_array2 {A} (a : array2 A) : Prop :=
  length (cells2 a) = (rows2 a * cols2 a)%nat.
Definition wf_array3 {A} (a : array3 A) : Prop :=
  length (cells3 a) = (dim0 a * dim1 a * dim2 a)%nat.

(** An image: unsigned 8-bit samples. *)
Definition Image : Type := array3 Z.

(** ** The parameter validator (lines 33-50) *)

(** Python's [max] on a list. *)
Definition py_max (l : list Z) : result Z :=
  match l with
  | [] => Raise (ValueError MaxOfEmptySequence)
  | x :: xs => Ok (foldl Z.max x xs)
  end.

Definition check_color_hist_params (im : Image) (channels bins ranges : list Z)
    (mask : option (array2 Z)) : result unit :=
  (m <- py_max channels ;
   if decide (m > Z.of_nat (dim0 im) - 1)%Z then
     Raise (ValueError (MaxChannelRequested m (dim0 im)))
   else if decide (length channels ≠ length bins) then
     Raise (ValueError (ChannelsBinsLength (length channels) (length bins)))
   else if decide ((2 * length channels)%nat ≠ length ranges) then
     Raise (ValueError (RangeSize (length ranges) (2 * length channels)))
   else
     match mask with
     | Some mk =>
         if decide (take 1 (shape2 mk) ≠ take 1 (shape3 im)) then
           Raise (ValueError (MaskShape (take 1 (shape2 mk)) (take 1 (shape3 im))))
         else Ok tt
     | None => Ok tt
     end)%result.

(** ** The weighted histogram intersection (lines 74-88) *)

(** [np.dot] on two 1-D arrays. *)
Definition np_dot (x y : list Qc) : result Qc :=
  if decide (length x = length y) then Ok (Qcsum (zip_with Qcmult x y))
  else Raise (ValueError (ShapesNotAligned (length x) (length y))).

(** [np.ones(shape)] for the shape of a 1-D array of length [n]. *)
Definition np_ones (n : nat) : list Qc := replicate n 1.

(** [(hist_a > 0).astype(int) & (hist_b > 0).astype(int)] *)
Definition binary_mask (hist_a hist_b : list Qc) : list Z :=
  zip_with (fun a b => Z.land (gt_int a 0) (gt_int b 0)) hist_a hist_b.

(** [np.multiply(hist, mask)] with an integer mask of the same length. *)
Definition np_multiply_int (hist : list Qc) (mask : list Z) : list Qc :=
  zip_with (fun h m => h * Qc_of_Z m) hist mask.

Definition normalized_histogram_intersection
    (hist_a : list Qc) (a_size : Qc) (hist_b : list Qc) (b_size : Qc) : result Qc :=
  (if decide (length hist_a ≠ length hist_b) then
     Raise (ValueError (HistogramSizes (length hist_a) (length hist_b)))
   else
     let mask := binary_mask hist_a hist_b in
     let hist_a_masked := np_multiply_int hist_a mask in
     let hist_b_masked := np_multiply_int hist_b mask in
     let a_sizes := map (Qcmult a_size) (np_ones (length hist_a)) in
     let b_sizes := map (Qcmult b_size) (np_ones (length hist_b)) in
     da <- np_dot a_sizes hist_a_masked ;
     db <- np_dot b_sizes hist_b_masked ;
     py_float_div (da + db) (a_size + b_size))%result.

(** ** The colour histograms (lines 100-119) *)

(** [hist / n] on an array. *)
Definition np_divide (hist : list Qc) (n : Qc) : list npfloat :=
  map (fun x => np_true_divide x n) hist.

Section Histograms.

(** [cv2.calcHist([image], channels, mask, bins, ranges)]: OpenCV's binning
    routine, a dependency of the module. *)
Variable calcHist :
  Image -> list Z -> option (array2 Z) -> list Z -> list Z -> result ndarray.

Definition get_normalized_histogram (im : Image) (channels bins ranges : list Z)
    (mask : option (array2 Z)) : result (list npfloat) :=
  (check_color_hist_params im channels bins ranges mask ;;
   hist <- calcHist im channels mask bins ranges ;
   let hist := flatten hist in
   Ok (np_divide hist (norm1 hist)))%result.

Definition get_histogram (im : Image) (channels bins ranges : list Z)
    (mask : option (array2 Z)) : result ndarray :=
  (check_color_hist_params im channels bins ranges mask ;;
   calcHist im channels mask bins ranges)%result.

End Histograms.

(** ** The orientation-gradient descriptor (lines 155-203) *)

(** *** The store

    The caller's image and the copy the function works on are objects of a
    heap, named by locations; [stdout] collects what [print] writes. *)

Definition loc : Type := nat.

Record state : Type := State {
  heap : gmap loc Image;
  stdout : list string
}.

(** Computations that read and write the store and can raise. *)
Definition M (A : Type) : Type := state -> result A * state.

Definition mret {A} (a : A) : M A := fun s => (Ok a, s).

Definition mbind {A B} (m : M A) (k : A -> M B) : M B :=
  fun s =>
    match m s with
    | (Ok a, s') => k a s'
    | (Raise e, s') => (Raise e, s')
    end.

Definition lift {A} (r : result A) : M A := fun s => (r, s).

Declare Scope M_scope.
Delimit Scope M_scope with M.
Notation "x <- m ;; k" := (mbind m (fun x => k))
  (at level 100, m at next level, right associativity) : M_scope.
Notation "m ;;; k" := (mbind m (fun _ => k))
  (at level 100, right associativity) : M_scope.

(** [for x in l: acc = body(x, acc)] *)
Fixpoint for_each {A T} (l : list A) (body : A -> T -> M T) (acc : T) : M T :=
  match l with
  | [] => mret acc
  | x :: l' => (acc' <- body x acc ;; for_each l' body acc')%M
  end.

(** [print(line)] *)
Definition print (line : string) : M unit :=
  fun s => (Ok tt, State (heap s) (stdout s ++ [line])).

(** Reading the object at a location.  Every reference a Python program
    holds is live, so the [TypeError] of a dangling location is there for
    totality only. *)
Definition deref (l : loc) : M Image :=
  fun s =>
    match heap s !! l with
    | Some a => (Ok a, s)
    | None => (Raise TypeError, s)
    end.

(** [np.copy(a)]: a new array object with the cells of [a]. *)
Definition np_copy (l : loc) : M loc :=
  (a <- deref l ;;
   fun s =>
     let l' := fresh (dom (heap s)) in
     (Ok l', State (<[l' := a]> (heap s)) (stdout s)))%M.

(** *** Slices along the last axis *)

(** Shapes that broadcast together: equal, or one of them 1. *)
Definition bdim (a b : nat) : option nat :=
  if decide (a = b) then Some a
  else if decide (a = 1%nat) then Some b
  else if decide (b = 1%nat) then Some a
  else None.

(** The cell [(i, j)] of a 2-D array stretched along its axes of
    length 1. *)
Definition bcell `{Inhabited A} (a : array2 A) (i j : nat) : A :=
  cells2 a !!! ((if decide (rows2 a = 1%nat) then 0 else i) * cols2 a
                + (if decide (cols2 a = 1%nat) then 0 else j))%nat.

(** A binary cell-wise operation on two 2-D arrays, with numpy's
    broadcasting. *)
Definition broadcast2 `{Inhabited A, Inhabited B} {C} (f : A -> B -> C)
    (a : array2 A) (b : array2 B) : result (array2 C) :=
  match bdim (rows2 a) (rows2 b), bdim (cols2 a) (cols2 b) with
  | Some r, Some c =>
      Ok (Array2 r c
            (map (fun p => f (bcell a (p / c) (p mod c)) (bcell b (p / c) (p mod c)))
                 (seq 0 (r * c))))
  | _, _ => Raise (ValueError (CannotBroadcast (shape2 a) (shape2 b)))
  end.

(** A cell-wise operation with a scalar. *)
Definition map2 {A B} (f : A -> B) (a : array2 A) : array2 B :=
  Array2 (rows2 a) (cols2 a) (map f (cells2 a)).

(** The cells [(r, c, k)] of a 3-D array for a fixed [k], as a 2-D
    array. *)
Definition last_slice `{Inhabited A} (a : array3 A) (k : nat) : array2 A :=
  Array2 (dim0 a) (dim1 a)
    (map (fun p => cells3 a !!! (p * dim2 a + k)%nat) (seq 0 (dim0 a * dim1 a))).

(** [a[:,:,k]] *)
Definition get_last `{Inhabited A} (a : array3 A) (k : nat) : result (array2 A) :=
  if decide (k < dim2 a)%nat then Ok (last_slice a k) else Raise IndexError.

(** [a[:,:,k] = v], the cells of [v] converted by [cast] to the cell type
    of [a]; [v] is broadcast to the shape of the slice. *)
Definition set_last {A} `{Inhabited B} (cast : B -> A) (a : array3 A) (k : nat)
    (v : array2 B) : result (array3 A) :=
  if decide (k < dim2 a)%nat then
    if decide ((rows2 v = dim0 a \/ rows2 v = 1%nat) /\
               (cols2 v = dim1 a \/ cols2 v = 1%nat)) then
      Ok (Array3 (dim0 a) (dim1 a) (dim2 a)
            (imap (fun j x =>
                     if decide (j mod dim2 a = k)%nat then
                       cast (bcell v ((j / dim2 a) / dim1 a) ((j / dim2 a) mod dim1 a))
                     else x)
                  (cells3 a)))
    else Raise (ValueError (CannotBroadcast (shape2 v) [dim0 a; dim1 a]))
  else Raise IndexError.

(** Conversion to an unsigned 8-bit sample. *)
Definition to_uint8 (z : Z) : Z := (z mod 256)%Z.

(** [image[:,:,k]] and [im[:,:,k] = v] on the heap. *)
Definition getitem_last (l : loc) (k : nat) : M (array2 Z) :=
  (a <- deref l ;; lift (get_last a k))%M.

Definition setitem_last (l : loc) (k : nat) (v : array2 Z) : M unit :=
  (a <- deref l ;;
   a' <- lift (set_last to_uint8 a k v) ;;
   fun s => (Ok tt, State (<[l := a']> (heap s)) (stdout s)))%M.

(** *** Reductions and constructors *)

(** [np.max] over all the cells of an array. *)
Definition np_max (l : list Qc) : result Qc :=
  match l with
  | [] => Raise (ValueError ZeroSizeReduction)
  | x :: xs => Ok (foldl (fun a b => if decide (a < b) then b else a) x xs)
  end.

(** [np.zeros((d0, d1, d2))] *)
Definition np_zeros3 (d0 d1 : nat) (d2 : Z) : result (array3 Qc) :=
  if decide (d2 < 0)%Z then Raise (ValueError NegativeDimensions)
  else Ok (Array3 d0 d1 (Z.to_nat d2) (replicate (d0 * d1 * Z.to_nat d2) 0)).

(** [np.sum(a, axis=(0,1))]: one sum per index of the last axis. *)
Definition np_sum01 (a : array3 Qc) : list Qc :=
  map (fun k => Qcsum (cells2 (last_slice a k))) (seq 0 (dim2 a)).

(** [np.arange(start, stop, step)]: [ceil((stop - start) / step)] values
    [start + i * step]. *)
Definition np_arange (start stop step : Qc) : list Qc :=
  map (fun i => start + Qc_of_Z (Z.of_nat i) * step)
      (seq 0 (Z.to_nat (Qceiling (this ((stop - start) / step)%Qc)))).

(** [np.pi], the double nearest to pi. *)
Definition np_pi : Qc := Q2Qc (884279719003555 # 281474976710656).

(** [l[i]] on a list and [d[k]] on a dictionary. *)
Definition index {A} (l : list A) (i : nat) : result A :=
  match l !! i with
  | Some x => Ok x
  | None => Raise IndexError
  end.

Definition dict_get {A} (d : gmap nat A) (k : nat) : result A :=
  match d !! k with
  | Some x => Ok x
  | None => Raise (KeyError k)
  end.

(** [np.linalg.norm(v) == 0]: the Euclidean norm is zero when the sum of
    the squares is. *)
Definition norm2_is_zero (v : list Qc) : bool :=
  bool_decide (Qcsum (map (fun x => x * x) v) = 0).

(** The attributes [.ori] and [.mag] of what the gradient operator
    returns. *)
Record gradient : Type := Gradient {
  ori : array2 Qc;
  mag : array2 Qc
}.

(** The indicator of one orientation bin (lines 189-191):
    [(ori > lo).astype(int) & (ori < hi).astype(int) & (mag > t).astype(int)] *)
Definition bin_indicator (g : gradient) (lo hi t : Qc) : result (array2 Z) :=
  (a <- broadcast2 Z.land (map2 (fun o => gt_int o lo) (ori g))
                          (map2 (fun o => lt_int o hi) (ori g)) ;
   broadcast2 Z.land a (map2 (fun m => gt_int m t) (mag g)))%result.

(** The orientation boundaries of the bins (lines 173-177). *)
Definition bin_orientations (step : Qc) : list Qc :=
  np_arange (- np_pi) np_pi step ++ [np_pi].

Section Sift.

(** [image_utils.get_derivative_orientation_and_mag(channel, sigma)]: the
    gradient operator of the module [image_utils], which gives the
    orientation and the magnitude of the gradient at every pixel of a
    channel. *)
Variable get_derivative_orientation_and_mag : array2 Z -> Qc -> result gradient.

(** Lines 156-196: the concatenated per-channel bin counts, before the
    normalisation.

    The copy [im] is an object of the heap, written through its location.
    The dictionaries [gradients], [thresholds] and [histograms] and the
    arrays they hold are created by the call and reachable from its local
    variables only: writing [hist[:,:,ori_bin]] through the alias
    [hist = histograms[channel]] updates the entry of the dictionary. *)
Definition sift_histogram (image : loc) (sigma : Qc) (no_bins : Z) (th : Qc)
    (mask : option (array2 Z)) : M (list Qc) :=
  (im <- np_copy image ;;
   match mask with
   | Some mk =>
       for_each (seq 0 3)
         (fun i _ =>
            channel <- getitem_last image i ;;
            masked <- lift (broadcast2 Z.mul mk channel) ;;
            setitem_last im i masked) tt
   | None => mret tt
   end ;;;
   shape <- deref im ;;
   let channels := dim2 shape in
   tables <-
     for_each (seq 0 channels)
       (fun channel '(gradients, thresholds) =>
          plane <- getitem_last im channel ;;
          g <- lift (get_derivative_orientation_and_mag plane sigma) ;;
          top <- lift (np_max (cells2 (mag g))) ;;
          mret (<[channel := g]> gradients, <[channel := th * top]> thresholds))
       ((∅ : gmap nat gradient), (∅ : gmap nat Qc)) ;;
   let '(gradients, thresholds) := tables in
   step <- lift (py_float_div (np_pi - (- np_pi)) (Qc_of_Z no_bins)) ;;
   let orientations := bin_orientations step in
   histograms <-
     for_each (seq 0 channels)
       (fun channel histograms =>
          z <- lift (np_zeros3 (dim0 shape) (dim1 shape) no_bins) ;;
          mret (<[channel := z]> histograms))
       (∅ : gmap nat (array3 Qc)) ;;
   histograms <-
     for_each (seq 0 (length orientations - 1))
       (fun ori_bin histograms =>
          lo <- lift (index orientations ori_bin) ;;
          hi <- lift (index orientations (ori_bin + 1)) ;;
          for_each (seq 0 channels)
            (fun channel histograms =>
               hist <- lift (dict_get histograms channel) ;;
               g <- lift (dict_get gradients channel) ;;
               t <- lift (dict_get thresholds channel) ;;
               ind <- lift (bin_indicator g lo hi t) ;;
               hist' <- lift (set_last Qc_of_Z hist ori_bin ind) ;;
               mret (<[channel := hist']> histograms))
            histograms)
       histograms ;;
   for_each (seq 0 channels)
     (fun channel hist =>
        h <- lift (dict_get histograms channel) ;;
        mret (hist ++ np_sum01 h))
     [])%M.

(** Lines 155-203. *)
Definition get_sift_features (image : loc) (sigma : Qc) (no_bins : Z) (th : Qc)
    (mask : option (array2 Z)) : M (list npfloat) :=
  (hist <- sift_histogram image sigma no_bins th mask ;;
   (if norm2_is_zero hist
    then print "Norm of the histogram = 0. Histogram is invalid."%string
    else mret tt) ;;;
   mret (np_divide hist (norm1 hist)))%M.

End Sift.

(** ** The histogram comparison and the per-colour histograms
    (lines 15-21, 60-61, 130-142) *)

(** The outcome of a function that also looks names up in a dictionary:
    the [KeyError] of such a lookup carries the name. *)
Inductive pyexn : Type :=
  | Builtin (e : exn)
  | KeyErrorName (key : string).

Inductive outcome (A : Type) : Type :=
  | Return (a : A)
  | Throw (e : pyexn).
Arguments Return {A} a.
Arguments Throw {A} e.

#[global] Instance pyexn_eq_dec : EqDecision pyexn.
Proof. solve_decision. Defined.
#[global] Instance outcome_eq_dec `{EqDecision A} : EqDecision (outcome A).
Proof. solve_decision. Defined.

Definition obind {A B : Type} (r : outcome A) (k : A -> outcome B) : outcome B :=
  match r with
  | Return a => k a
  | Throw e => Throw e
  end.

Declare Scope outcome_scope.
Delimit Scope outcome_scope with outcome.
Notation "x <- r ; k" := (obind r (fun x => k))
  (at level 100, r at next level, right associativity) : outcome_scope.

Definition of_result {A} (r : result A) : outcome A :=
  match r with
  | Ok a => Return a
  | Raise e => Throw (Builtin e)
  end.

(** [d[name]] on a dictionary with string keys. *)
Definition name_get {A} (d : gmap string A) (name : string) : outcome A :=
  match d !! name with
  | Some x => Return x
  | None => Throw (KeyErrorName name)
  end.

(** [for x in l: acc = body(x, acc)] *)
Fixpoint ofor_each {A T} (l : list A) (body : A -> T -> outcome T) (acc : T) : outcome T :=
  match l with
  | [] => Return acc
  | x :: l' => (acc' <- body x acc ; ofor_each l' body acc')%outcome
  end.

(** [enumerate(l)] *)
Definition enumerate {A} (l : list A) : list (nat * A) := imap pair l.

(** OpenCV's comparison methods, the values of the dictionary. *)
Inductive comp_method : Type :=
  | CV_COMP_CORREL
  | CV_COMP_CHISQR
  | CV_COMP_INTERSECT
  | CV_COMP_BHATTACHARYYA.

#[global] Instance comp_method_eq_dec : EqDecision comp_method.
Proof. solve_decision. Defined.

Definition comparison_methods : gmap string comp_method :=
  list_to_map
    [ ("correlation"%string, CV_COMP_CORREL);
      ("chi-squared"%string, CV_COMP_CHISQR);
      ("intersection"%string, CV_COMP_INTERSECT);
      ("bhattacharyya"%string, CV_COMP_BHATTACHARYYA) ].

Section Comparison.

(** [cv2.compareHist(hist_a, hist_b, method)], OpenCV's comparison. *)
Variable compareHist : list Qc -> list Qc -> comp_method -> result Qc.

Definition compare_histograms (hist_a hist_b : list Qc) (method_name : string)
    : outcome Qc :=
  (method <- name_get comparison_methods method_name ;
   of_result (compareHist hist_a hist_b method))%outcome.

End Comparison.

(** The default [method_name]. *)
Definition default_method_name : string := "intersection".

Section RgbHistograms.

Variable calcHist :
  Image -> list Z -> option (array2 Z) -> list Z -> list Z -> result ndarray.

Definition get_rgb_histograms (im : Image) (bins ranges : list Z)
    (mask : option (array2 Z))
    : outcome (list npfloat * list npfloat * list npfloat) :=
  (let colors := ["b"; "g"; "r"]%string in
   histograms <-
     ofor_each (enumerate colors)
       (fun '(i, color) histograms =>
          h <- of_result (get_normalized_histogram calcHist im [Z.of_nat i]
                            bins ranges mask) ;
          Return (<[color := h]> histograms))
       (∅ : gmap string (list npfloat)) ;
   b_hist <- name_get histograms "b" ;
   g_hist <- name_get histograms "g" ;
   r_hist <- name_get histograms "r" ;
   Return (r_hist, g_hist, b_hist))%outcome.

End RgbHistograms.

(** The default [bins] and [ranges] of [get_rgb_histograms]. *)
Definition default_rgb_bins : list Z := [256%Z].
Definition default_rgb_ranges : list Z := [0; 256]%Z.

(** ** Specification-side definitions *)

(** A histogram zeroed at every bin except those where both it and the
    other histogram are strictly positive. *)
Definition joint_support (h other : list Qc) : list Qc :=
  zip_with (fun x y => if decide (0 < x /\ 0 < y) then x else 0) h other.

(** A histogram restricted to its strictly positive bins. *)
Definition positive_bins (h : list Qc) : list Qc :=
  map (fun x => if decide (0 < x) then x else 0) h.

(** The width of an orientation bin and the [j]-th bin boundary, for
    [no_bins] bins between [-np.pi] and [np.pi]. *)
Definition bin_step (no_bins : Z) : Qc := (np_pi - - np_pi) / Qc_of_Z no_bins.

Definition bin_boundary (no_bins : Z) (j : nat) : Qc :=
  - np_pi + Qc_of_Z (Z.of_nat j) * bin_step no_bins.

(** One cell of [bin_indicator]: a pixel of orientation [o] and magnitude
    [m], for the bin from [lo] to [hi] and the threshold [t]. *)
Definition pixel_indicator (o m lo hi t : Qc) : Z :=
  Z.land (Z.land (gt_int o lo) (lt_int o hi)) (gt_int m t).

(** The pixel is counted into the bin. *)
Definition pixel_in_bin (o m lo hi t : Qc) : Prop := lo < o /\ o < hi /\ t < m.

#[global] Instance pixel_in_bin_dec o m lo hi t : Decision (pixel_in_bin o m lo hi t).
Proof. unfold pixel_in_bin. apply _. Defined.

(** The number of pixels of a channel counted into a bin. *)
Definition bin_count (g : gradient) (t lo hi : Qc) (pixels : nat) : Qc :=
  Qc_of_Z (Z.of_nat (length (filter
    (fun p => pixel_in_bin (cells2 (ori g) !!! p) (cells2 (mag g) !!! p) lo hi t)
    (seq 0 pixels)))).

(** What the descriptor expects of its gradient operator, a parameter
    here ([image_utils] is another module): for a single-channel 2-D array
    it returns two arrays of the same shape, the orientation and the
    magnitude of the gradient at every pixel. *)
Definition same_shape_gradients (G : array2 Z -> Qc -> result gradient) : Prop :=
  forall plane sigma, wf_array2 plane ->
    exists g, G plane sigma = Ok g
      /\ rows2 (ori g) = rows2 plane /\ cols2 (ori g) = cols2 plane
      /\ rows2 (mag g) = rows2 plane /\ cols2 (mag g) = cols2 plane
      /\ wf_array2 (ori g) /\ wf_array2 (mag g).

(** A mask the descriptor can apply: the image has the three channels the
    masking loop writes, and the mask broadcasts to a channel. *)
Definition mask_fits (img : Image) (mask : option (array2 Z)) : Prop :=
  match mask with
  | None => True
  | Some mk =>
      (3 <= dim2 img)%nat
      /\ (rows2 mk = dim0 img \/ rows2 mk = 1%nat)
      /\ (cols2 mk = dim1 img \/ cols2 mk = 1%nat)
  end.

(** *** Loop invariants of the descriptor *)

Definition gradient_fits (g : gradient) (d0 d1 : nat) : Prop :=
  rows2 (ori g) = d0 /\ cols2 (ori g) = d1
  /\ rows2 (mag g) = d0 /\ cols2 (mag g) = d1
  /\ wf_array2 (ori g) /\ wf_array2 (mag g).

(** The dictionaries [gradients] and [thresholds] after the channels below
    [n] of the working copy [w]. *)
Definition tables_for (G : array2 Z -> Qc -> result gradient) (w : Image)
    (sigma th : Qc) (n : nat) (tables : gmap nat gradient * gmap nat Qc) : Prop :=
  forall ch, (ch < n)%nat ->
    exists g top,
      G (last_slice w ch) sigma = Ok g
      /\ np_max (cells2 (mag g)) = Ok top
      /\ tables.1 !! ch = Some g
      /\ tables.2 !! ch = Some (th * top)
      /\ gradient_fits g (dim0 w) (dim1 w).

Definition tables_fit (d0 d1 c : nat)
    (gradients : gmap nat gradient) (thresholds : gmap nat Qc) : Prop :=
  forall ch, (ch < c)%nat ->
    exists g t, gradients !! ch = Some g /\ thresholds !! ch = Some t
      /\ gradient_fits g d0 d1.

(** The cells of the per-channel indicator arrays after the bins below
    [upto ch] of channel [ch] have been written. *)
Definition filled (d0 d1 : nat) (no_bins : Z)
    (gradients : gmap nat gradient) (thresholds : gmap nat Qc)
    (c : nat) (upto : nat -> nat) (hists : gmap nat (array3 Qc)) : Prop :=
  forall ch, (ch < c)%nat ->
    exists h, hists !! ch = Some h
      /\ dim0 h = d0 /\ dim1 h = d1 /\ dim2 h = Z.to_nat no_bins
      /\ length (cells3 h) = (d0 * d1 * Z.to_nat no_bins)%nat
      /\ forall g t p j,
           gradients !! ch = Some g -> thresholds !! ch = Some t ->
           (p < d0 * d1)%nat -> (j < Z.to_nat no_bins)%nat ->
           cells3 h !!! (p * Z.to_nat no_bins + j)%nat
           = if decide (j < upto ch)%nat then
               Qc_of_Z (pixel_indicator (cells2 (ori g) !!! p) (cells2 (mag g) !!! p)
                          (bin_boundary no_bins j) (bin_boundary no_bins (S j)) t)
             else 0.

(** The per-bin sums of one channel. *)
Definition block (hists : gmap nat (array3 Qc)) (ch : nat) : list Qc :=
  match hists !! ch with
  | Some h => np_sum01 h
  | None => []
  end.

(** A computation leaves the object at [l] as it is. *)
Definition preserves {A} (l : loc) (m : M A) : Prop :=
  forall s, heap (m s).2 !! l = heap s !! l.

(** ** Example inputs *)

Definition q (n d : Z) : Qc := Qc_of_Z n / Qc_of_Z d.

(** The default arguments of the histogram functions. *)
Definition default_channels : list Z := [0; 1; 2]%Z.
Definition default_bins : list Z := [25; 25; 25]%Z.
Definition default_ranges : list Z := [0; 256; 0; 256; 0; 256]%Z.

Definition blank_image (d0 d1 d2 : nat) : Image :=
  Array3 d0 d1 d2 (replicate (d0 * d1 * d2) 0%Z).

Definition blank_mask (r c : nat) : array2 Z := Array2 r c (replicate (r * c) 1%Z).

(** The 2x2x3 patch of the spec's end-to-end example: channel 0 is 10 at
    every pixel. *)
Definition flat_patch : Image :=
  Array3 2 2 3 [10; 0; 0; 10; 0; 0; 10; 0; 0; 10; 0; 0]%Z.

(** A binning routine for one unmasked channel, to instantiate [calcHist]
    in examples: the counts of the samples of the channel in [nbins] equal
    intervals of [lo, hi). *)
Definition count_channel (im : Image) (channel nbins : nat) (lo hi : Z) : list Qc :=
  map (fun b =>
         Qc_of_Z (Z.of_nat (length (filter
           (fun z => (lo <= z < hi)%Z
                     /\ ((z - lo) * Z.of_nat nbins / (hi - lo))%Z = Z.of_nat b)
           (cells2 (last_slice im channel))))))
      (seq 0 nbins).

Definition calcHist1 (im : Image) (channels : list Z) (mask : option (array2 Z))
    (bins ranges : list Z) : result ndarray :=
  match channels, bins, ranges, mask with
  | c :: nil, b :: nil, lo :: hi :: nil, None =>
      Ok (NdArray [Z.to_nat b] (count_channel im (Z.to_nat c) (Z.to_nat b) lo hi))
  | _, _, _, _ => Raise TypeError
  end.

(** Gradient operators to instantiate the descriptor in examples: one
    whose orientation grows with the sample, one whose orientation is
    [np.pi] at every pixel. *)
Definition example_gradient (plane : array2 Z) (sigma : Qc) : result gradient :=
  Ok (Gradient (map2 (fun z => (Qc_of_Z z - Qc_of_Z 128) / Qc_of_Z 50) plane)
               (map2 (fun z => 1 + Qc_of_Z z) plane)).

Definition gradient_at_pi (plane : array2 Z) (sigma : Qc) : result gradient :=
  Ok (Gradient (map2 (fun _ => np_pi) plane) (map2 (fun z => 1 + Qc_of_Z z) plane)).

Definition example_patch : Image :=
  Array3 2 2 3 [0; 10; 250; 60; 70; 80; 128; 128; 128; 200; 210; 90]%Z.

Definition example_mask : array2 Z := Array2 2 2 [1; 0; 1; 1]%Z.

Definition example_state : state := State {[ 0%nat := example_patch ]} [].

Definition one_pixel : state := State {[ 0%nat := Array3 1 1 1 [0%Z] ]} [].

(** ** Definitions for the further properties *)

(** The keys of [comparison_methods]. *)
Definition known_methods : list string :=
  ["correlation"; "chi-squared"; "intersection"; "bhattacharyya"]%string.

(** A patch of three rows, one column and three channels. *)
Definition rgb_patch : Image :=
  Array3 3 1 3 [10; 200; 30; 10; 200; 30; 250; 200; 40]%Z.

(** The line the descriptor prints for a zero norm. *)
Definition diagnostic : string := "Norm of the histogram = 0. Histogram is invalid.".

(** A computation writes nothing to the standard output. *)
Definition silent {A} (m : M A) : Prop := forall s, stdout (m s).2 = stdout s.

(** The exceptions of the masking loop. *)
Definition masking_error (e : exn) : Prop :=
  e = IndexError \/ exists sa sb, e = ValueError (CannotBroadcast sa sb).

(** The samples of an image are unsigned 8-bit values. *)
Definition uint8_samples (img : Image) : Prop :=
  Forall (fun z => (0 <= z < 256)%Z) (cells3 img).

(** The sum of a list of natural numbers. *)
Definition nat_sum (l : list nat) : nat := foldr Nat.add 0%nat l.

(** A gradient operator whose magnitudes are not negative: the absolute
    value of the sample. *)
Definition gradient_of_abs (plane : array2 Z) (sigma : Qc) : result gradient :=
  Ok (Gradient (map2 (fun z => (Qc_of_Z z - Qc_of_Z 128) / Qc_of_Z 50) plane)
               (map2 (fun z => Qcabs (Qc_of_Z z)) plane)).

(** An image of two channels. *)
Definition two_channel_state : state :=
  State {[ 0%nat := Array3 2 1 2 [5; 6; 7; 8]%Z ]} [].

(** * Properties *)

(** Closed goals on concrete inputs are decided by evaluation. *)
Ltac by_compute := apply (bool_decide_unpack _); vm_compute; exact I.

(** ** Sums and norms *)

Lemma Qcsum_nil : Qcsum [] = 0.
Proof. reflexivity. Qed.

Lemma Qcsum_cons (x : Qc) (l : list Qc) : Qcsum (x :: l) = x + Qcsum l.
Proof. reflexivity. Qed.

Lemma Qcsum_scale (c : Qc) (v : list Qc) :
  Qcsum (map (fun x => x * c) v) = Qcsum v * c.
Proof.
  induction v as [|x v IH]; simpl.
  - rewrite !Qcsum_nil. ring.
  - rewrite !Qcsum_cons, IH. ring.
Qed.

Lemma Qcsum_indicators {A} (P : A -> Prop) `{forall x, Decision (P x)} (l : list A) :
  Qcsum (map (fun x => Qc_of_Z (if decide (P x) then 1 else 0)) l)
  = Qc_of_Z (Z.of_nat (length (filter P l))).
Proof.
  induction l as [|x l IH]; [symmetry; apply Z2Qc_inj_0|].
  rewrite filter_cons. cbn [map]. rewrite Qcsum_cons, IH.
  destruct (decide (P x)).
  - cbn [length]. rewrite Nat2Z.inj_succ, <- Z.add_1_l, Z2Qc_inj_add. done.
  - rewrite Z2Qc_inj_0. ring.
Qed.

Lemma Qc_double_ne_0 (s : Qc) : s <> 0 -> s + s <> 0.
Proof.
  intros Hs E. apply Hs.
  assert (E2 : 2 * s = 0) by (rewrite <- E; ring).
  apply Qcmult_integral in E2 as [E2|E2]; [|done].
  exfalso. revert E2. by_compute.
Qed.

Lemma Qc_of_Z_ne_0 (n : Z) : (n <> 0)%Z -> Qc_of_Z n <> 0.
Proof. intros Hn E. apply Hn. apply Z2Qc_inj. by rewrite E, Z2Qc_inj_0. Qed.

Lemma norm1_nonneg (v : list Qc) : 0 ≤ norm1 v.
Proof.
  unfold norm1. induction v as [|x v IH]; simpl.
  - by rewrite Qcsum_nil.
  - rewrite Qcsum_cons. apply Qcplus_nonneg_nonneg; [apply Qcabs_nonneg | done].
Qed.

Lemma norm1_pos (v : list Qc) (x : Qc) : x ∈ v -> x <> 0 -> 0 < norm1 v.
Proof.
  intros Hin Hx. unfold norm1.
  induction Hin as [x v|x y v _ IH]; simpl; rewrite Qcsum_cons.
  - apply Qcplus_pos_nonneg; [|apply norm1_nonneg].
    destruct (Qcle_lt_or_eq _ _ (Qcabs_nonneg x)) as [|E]; [done|].
    symmetry in E. by apply Qcabs_null in E.
  - apply Qcplus_nonneg_pos; [apply Qcabs_nonneg | by apply IH].
Qed.

Lemma norm1_scale (c : Qc) (v : list Qc) :
  0 ≤ c -> norm1 (map (fun x => x * c) v) = norm1 v * c.
Proof.
  intros Hc. unfold norm1. rewrite <- Qcsum_scale, !map_map.
  f_equal. apply map_ext. intros x. by rewrite Qcabs_Qcmult, (Qcabs_pos c).
Qed.

Lemma np_divide_finite (v : list Qc) (n : Qc) :
  n <> 0 -> np_divide v n = map Fin (map (fun x => x * (1 / n)) v).
Proof.
  intros Hn. unfold np_divide, np_true_divide. rewrite map_map.
  apply map_ext. intros x. destruct (decide _); [done|]. f_equal. by field.
Qed.

(** Dividing a vector that is not all zero by its L1 norm gives finite
    cells, proportional to the vector, whose absolute values sum to 1. *)
Lemma l1_normalise (v : list Qc) :
  (exists x, x ∈ v /\ x <> 0) ->
  np_divide v (norm1 v) = map Fin (map (fun x => x * (1 / norm1 v)) v)
  /\ norm1 (map (fun x => x * (1 / norm1 v)) v) = 1.
Proof.
  intros (x & Hin & Hx). pose proof (norm1_pos v x Hin Hx) as Hpos.
  assert (Hne : norm1 v <> 0).
  { intros E. rewrite E in Hpos. by apply Qclt_not_eq in Hpos. }
  split; [by apply np_divide_finite|].
  rewrite norm1_scale.
  - by field.
  - apply Qclt_le_weak. unfold Qcdiv. rewrite Qcmult_1_l. by apply Qcinv_pos.
Qed.

(** ** The weighted histogram intersection *)

Lemma masked_cell (h x y : Qc) :
  h * Qc_of_Z (Z.land (gt_int x 0) (gt_int y 0))
  = if decide (0 < x /\ 0 < y) then h else 0.
Proof.
  unfold gt_int.
  destruct (decide (0 < x)), (decide (0 < y)), (decide (0 < x /\ 0 < y));
    try tauto;
    rewrite ?Z.land_diag, ?Z.land_0_r, ?Z.land_0_l, ?Z2Qc_inj_1, ?Z2Qc_inj_0; ring.
Qed.

Lemma masked_a (ha hb : list Qc) :
  np_multiply_int ha (binary_mask ha hb) = joint_support ha hb.
Proof.
  unfold np_multiply_int, binary_mask, joint_support.
  revert hb. induction ha as [|x ha IH]; intros [|y hb]; simpl; try done.
  rewrite IH. f_equal. apply masked_cell.
Qed.

Lemma masked_b (ha hb : list Qc) :
  np_multiply_int hb (binary_mask ha hb) = joint_support hb ha.
Proof.
  unfold np_multiply_int, binary_mask, joint_support.
  revert hb. induction ha as [|x ha IH]; intros [|y hb]; simpl; try done.
  rewrite IH. f_equal. rewrite masked_cell.
  destruct (decide (0 < x /\ 0 < y)), (decide (0 < y /\ 0 < x)); tauto.
Qed.

Lemma length_joint_support (h other : list Qc) :
  length h = length other -> length (joint_support h other) = length h.
Proof. intros E. unfold joint_support. rewrite length_zip_with. lia. Qed.

Lemma np_dot_sizes (size : Qc) (n : nat) (v : list Qc) :
  length v = n ->
  np_dot (map (Qcmult size) (np_ones n)) v = Ok (size * Qcsum v).
Proof.
  intros <-. unfold np_dot, np_ones.
  rewrite length_map, length_replicate.
  destruct (decide _) as [_|]; [|done]. f_equal.
  induction v as [|x v IH]; simpl.
  - rewrite !Qcsum_nil. ring.
  - rewrite !Qcsum_cons, IH. ring.
Qed.

Lemma intersection_equal_length (ha : list Qc) (a : Qc) (hb : list Qc) (b : Qc) :
  length ha = length hb ->
  normalized_histogram_intersection ha a hb b
  = py_float_div (a * Qcsum (joint_support ha hb) + b * Qcsum (joint_support hb ha))
                 (a + b).
Proof.
  intros E. unfold normalized_histogram_intersection.
  destruct (decide _) as [|_]; [done|].
  rewrite masked_a, masked_b.
  rewrite !np_dot_sizes by (rewrite length_joint_support; congruence).
  reflexivity.
Qed.

Lemma joint_support_diag (h : list Qc) : joint_support h h = positive_bins h.
Proof.
  unfold joint_support, positive_bins.
  induction h as [|x h IH]; simpl; [done|]. rewrite IH. f_equal.
  destruct (decide (0 < x /\ 0 < x)), (decide (0 < x)); tauto.
Qed.

Lemma positive_bins_all_positive (h : list Qc) :
  Forall (fun x => 0 < x) h -> positive_bins h = h.
Proof.
  unfold positive_bins. induction 1 as [|x h Hx _ IH]; simpl; [done|].
  rewrite IH. by destruct (decide (0 < x)).
Qed.

(** C1: for histograms of equal length, the weighted intersection is
    [(a_size * sum(maskedHistA) + b_size * sum(maskedHistB)) / (a_size + b_size)],
    the masked histograms being the histograms zeroed outside the bins where
    both are strictly positive.  The quotient is the one Python computes: when
    the weights sum to zero the division raises [ZeroDivisionError]. *)
Theorem intersection_value (ha : list Qc) (a : Qc) (hb : list Qc) (b : Qc) :
  length ha = length hb ->
  (a + b <> 0 ->
   normalized_histogram_intersection ha a hb b
   = Ok ((a * Qcsum (joint_support ha hb) + b * Qcsum (joint_support hb ha)) / (a + b)))
  /\ (a + b = 0 ->
      normalized_histogram_intersection ha a hb b = Raise ZeroDivisionError).
Proof.
  intros E. rewrite intersection_equal_length by done. unfold py_float_div.
  split; intros H; by destruct (decide _).
Qed.

Lemma intersection_value_witness :
  normalized_histogram_intersection [q 1 2; q 1 2; 0] (q 3 1) [q 1 4; 0; q 3 4] 1
  = Ok (q 7 16).
Proof.
  destruct (intersection_value [q 1 2; q 1 2; 0] (q 3 1) [q 1 4; 0; q 3 4] 1 eq_refl)
    as [H _].
  rewrite H by by_compute. by_compute.
Defined.

(** C4, as the spec has it, fails: with [h = [1]] and [s = 2] the
    intersection of [h] with itself is 1, not [s * sum(h) = 2]. *)
Lemma weight_cancels_example :
  normalized_histogram_intersection [1] 2 [1] 2 = Ok 1
  /\ normalized_histogram_intersection [1] 2 [1] 2 <> Ok (2 * Qcsum (positive_bins [1])).
Proof. split; by_compute. Qed.

(** C4, amended: for a weight [s] other than zero, the intersection of
    [(h, s)] with itself is the sum of the strictly positive bins of [h],
    whatever [s] is, which is [sum(h)] when all bins are positive. *)
Theorem self_intersection (h : list Qc) (s : Qc) :
  s <> 0 ->
  normalized_histogram_intersection h s h s = Ok (Qcsum (positive_bins h))
  /\ (Forall (fun x => 0 < x) h ->
      normalized_histogram_intersection h s h s = Ok (Qcsum h)).
Proof.
  intros Hs.
  assert (E : normalized_histogram_intersection h s h s = Ok (Qcsum (positive_bins h))).
  { rewrite intersection_equal_length by done. rewrite joint_support_diag.
    unfold py_float_div. destruct (decide _) as [E|_].
    - by apply Qc_double_ne_0 in E.
    - f_equal. field. by apply Qc_double_ne_0. }
  split; [done|]. intros Hpos. by rewrite E, positive_bins_all_positive.
Qed.

Lemma self_intersection_witness :
  normalized_histogram_intersection [q 1 4; q 3 4] (q 5 1) [q 1 4; q 3 4] (q 5 1) = Ok 1.
Proof.
  assert (Hs : q 5 1 <> 0) by by_compute.
  destruct (self_intersection [q 1 4; q 3 4] (q 5 1) Hs) as [H _].
  rewrite H. by_compute.
Defined.

(** C8: the weighted intersection raises the [ShapeMismatch] error exactly
    when the two histograms differ in length, and then whatever the bins
    and the weights are: the error carries the two lengths only. *)
Theorem mismatched_lengths_raise (ha : list Qc) (a : Qc) (hb : list Qc) (b : Qc) :
  (length ha <> length hb
   <-> normalized_histogram_intersection ha a hb b
       = Raise (ValueError (HistogramSizes (length ha) (length hb))))
  /\ (forall e, normalized_histogram_intersection ha a hb b = Raise e ->
        ShapeMismatch e -> length ha <> length hb).
Proof.
  split; [split|].
  - intros Hne. unfold normalized_histogram_intersection. by destruct (decide _).
  - intros He E. rewrite intersection_equal_length in He by done.
    unfold py_float_div in He. by destruct (decide _).
  - intros e He Hs E. rewrite intersection_equal_length in He by done.
    unfold py_float_div in He. destruct (decide _); [|done].
    injection He as <-. done.
Qed.

(** ** The parameter validator *)

(** What the validator checks: it accepts exactly when the channel list is
    not empty with a maximum of at most [image.shape[0] - 1], the lengths
    agree, and the mask, if any, has as many rows as the image. *)
Lemma check_color_hist_params_accepts (im : Image) (channels bins ranges : list Z)
    (mask : option (array2 Z)) :
  check_color_hist_params im channels bins ranges mask = Ok tt
  <-> (exists m, py_max channels = Ok m /\ (m <= Z.of_nat (dim0 im) - 1)%Z)
      /\ length channels = length bins
      /\ (2 * length channels)%nat = length ranges
      /\ (forall mk, mask = Some mk -> rows2 mk = dim0 im).
Proof.
  unfold check_color_hist_params.
  destruct (py_max channels) as [m|e]; simpl.
  2:{ split; [done|]. by intros [(m & ? & _) _]. }
  destruct (decide (m > _)%Z).
  { split; [done|]. intros [(m' & [= <-] & ?) _]. lia. }
  destruct (decide (length channels <> _)).
  { split; [done|]. by intros (_ & ? & _). }
  destruct (decide (_ <> length ranges)).
  { split; [done|]. by intros (_ & _ & ? & _). }
  destruct mask as [mk|]; simpl.
  - destruct (decide _) as [Hne|Heq].
    + split; [done|]. intros (_ & _ & _ & H). specialize (H mk eq_refl).
      destruct Hne. by rewrite H.
    + split; [|done]. intros _. apply dec_stable in Heq. injection Heq as Heq.
      repeat split; eauto with lia. intros ? [= <-]. done.
  - split; [|done]. intros _. repeat split; eauto with lia. done.
Qed.

(** Whatever the validator raises is one of its four errors, or the error
    of [max] on an empty channel list. *)
Lemma check_color_hist_params_raises (im : Image) (channels bins ranges : list Z)
    (mask : option (array2 Z)) (e : exn) :
  check_color_hist_params im channels bins ranges mask = Raise e ->
  InvalidArgument e \/ (channels = [] /\ e = ValueError MaxOfEmptySequence).
Proof.
  unfold check_color_hist_params.
  destruct channels as [|c channels]; simpl; [intros [= <-]; by right|].
  repeat (destruct (decide _); [intros [= <-]; by left|]).
  destruct mask as [mk|]; [|done].
  by destruct (decide _); [intros [= <-]; left|].
Qed.

(** C3: the validator bounds the requested channels by the number of rows
    of the image, [image.shape[0]], where its message speaks of the channels
    of the image.  On a 5x5x3 image it accepts the channel index 4, which
    exceeds the channel count minus 1; on a 1x1x3 image it rejects the
    default request, whose conditions all hold. *)
Theorem channel_bound_uses_rows :
  check_color_hist_params (blank_image 5 5 3) [4%Z] [8%Z] [0%Z; 256%Z] None = Ok tt
  /\ py_max [4%Z] = Ok 4%Z
  /\ (4 > Z.of_nat (dim2 (blank_image 5 5 3)) - 1)%Z
  /\ check_color_hist_params (blank_image 1 1 3)
       default_channels default_bins default_ranges None
     = Raise (ValueError (MaxChannelRequested 2 1))
  /\ py_max default_channels = Ok 2%Z
  /\ (2 < Z.of_nat (dim2 (blank_image 1 1 3)))%Z.
Proof. repeat split. Qed.

(** C7: the validator compares the first dimension of the mask and of the
    image only, [shape[:1]]: a mask of 2 rows and 5 columns passes for an
    image of 2 rows and 3 columns. *)
Theorem mask_columns_unchecked :
  check_color_hist_params (blank_image 2 3 3) [0%Z] [8%Z] [0%Z; 256%Z]
    (Some (blank_mask 2 5)) = Ok tt
  /\ shape2 (blank_mask 2 5) = [2; 5]%nat
  /\ take 2 (shape3 (blank_image 2 3 3)) = [2; 3]%nat.
Proof. repeat split. Qed.

(** A mask matching both leading dimensions passes the mask check. *)
Lemma mask_matching_passes (im : Image) (channels bins ranges : list Z) (mk : array2 Z) :
  shape2 mk = take 2 (shape3 im) ->
  check_color_hist_params im channels bins ranges None = Ok tt ->
  check_color_hist_params im channels bins ranges (Some mk) = Ok tt.
Proof.
  intros [= Hr Hc]. rewrite !check_color_hist_params_accepts.
  intros (? & ? & ? & _). repeat split; try done. by intros ? [= <-].
Qed.

(** ** The colour histograms *)

Section HistogramFacts.

Variable calcHist :
  Image -> list Z -> option (array2 Z) -> list Z -> list Z -> result ndarray.

(** C10: with an empty channel list the validator fails on [max(channels)],
    and with it [get_histogram] and [get_normalized_histogram], whatever the
    binning routine would compute. *)
Theorem empty_channels_raise (im : Image) (bins ranges : list Z)
    (mask : option (array2 Z)) :
  check_color_hist_params im [] bins ranges mask = Raise (ValueError MaxOfEmptySequence)
  /\ get_histogram calcHist im [] bins ranges mask = Raise (ValueError MaxOfEmptySequence)
  /\ get_normalized_histogram calcHist im [] bins ranges mask
     = Raise (ValueError MaxOfEmptySequence).
Proof. repeat split. Qed.

(** C5: when [get_histogram] returns a raw histogram that is not all zero,
    [get_normalized_histogram] returns, for the same arguments, finite bins
    whose absolute values sum to 1 and which are the flattened raw bins
    times [1 / L1-norm]. *)
Theorem normalized_histogram_l1 (im : Image) (channels bins ranges : list Z)
    (mask : option (array2 Z)) (raw : ndarray) :
  get_histogram calcHist im channels bins ranges mask = Ok raw ->
  (exists x, x ∈ flatten raw /\ x <> 0) ->
  exists hist : list Qc,
    get_normalized_histogram calcHist im channels bins ranges mask = Ok (map Fin hist)
    /\ Qcsum (map Qcabs hist) = 1
    /\ hist = map (fun x => x * (1 / norm1 (flatten raw))) (flatten raw).
Proof.
  unfold get_histogram, get_normalized_histogram.
  destruct (check_color_hist_params _ _ _ _ _) as [[]|e]; simpl; [|done].
  intros -> Hnz. simpl.
  destruct (l1_normalise (flatten raw) Hnz) as [Hdiv Hone].
  eexists. split; [by rewrite Hdiv|]. split; [exact Hone | done].
Qed.

End HistogramFacts.

Lemma normalized_histogram_l1_witness :
  get_normalized_histogram calcHist1 flat_patch [0%Z] [2%Z] [0%Z; 256%Z] None
  = Ok [Fin 1; Fin 0].
Proof.
  assert (Hraw : get_histogram calcHist1 flat_patch [0%Z] [2%Z] [0%Z; 256%Z] None
                 = Ok (NdArray [2%nat] [Qc_of_Z 4; 0])) by by_compute.
  assert (Hnz : exists x, x ∈ flatten (NdArray [2%nat] [Qc_of_Z 4; 0]) /\ x <> 0).
  { exists (Qc_of_Z 4). split; [left | by_compute]. }
  destruct (normalized_histogram_l1 calcHist1 _ _ _ _ _ _ Hraw Hnz) as (hist & -> & _ & ->).
  by_compute.
Defined.

(** ** Arrays *)

Lemma lookup_total_tabulate `{Inhabited A} (f : nat -> A) (n p : nat) :
  (p < n)%nat -> map f (seq 0 n) !!! p = f p.
Proof.
  intros Hp. apply list_lookup_total_correct.
  rewrite list_lookup_fmap, lookup_seq_lt by done. done.
Qed.

Lemma lookup_total_map `{Inhabited A, Inhabited B} (f : A -> B) (l : list A) (p : nat) :
  (p < length l)%nat -> map f l !!! p = f (l !!! p).
Proof. apply list_lookup_total_fmap. Qed.

Lemma bdim_same (a : nat) : bdim a a = Some a.
Proof. unfold bdim. by destruct (decide _). Qed.

Lemma bdim_stretch (a d : nat) : a = d \/ a = 1%nat -> bdim a d = Some d.
Proof.
  intros [->| ->]; [apply bdim_same|]. unfold bdim.
  destruct (decide (1%nat = d)) as [<-|]; [done|]. by destruct (decide _).
Qed.

Lemma bcell_flat `{Inhabited A} (a : array2 A) (c p : nat) :
  cols2 a = c -> (p < rows2 a * c)%nat ->
  bcell a (p / c) (p mod c) = cells2 a !!! p.
Proof.
  intros Hc Hp. unfold bcell. rewrite Hc. f_equal.
  assert (c <> 0)%nat by (intros ->; lia).
  destruct (decide (rows2 a = 1%nat)) as [Hr|Hr], (decide (c = 1%nat)) as [Hc1|Hc1].
  - rewrite Hr, Hc1 in Hp. lia.
  - rewrite Hr in Hp. rewrite Nat.mod_small by lia. lia.
  - rewrite Hc1. rewrite Nat.div_1_r. lia.
  - pose proof (Nat.div_mod_eq p c). lia.
Qed.

Lemma broadcast2_same_shape `{Inhabited A, Inhabited B} {C} (f : A -> B -> C)
    (a : array2 A) (b : array2 B) :
  rows2 a = rows2 b -> cols2 a = cols2 b ->
  broadcast2 f a b
  = Ok (Array2 (rows2 a) (cols2 a)
          (map (fun p => f (cells2 a !!! p) (cells2 b !!! p))
               (seq 0 (rows2 a * cols2 a)))).
Proof.
  intros Hr Hc. unfold broadcast2. rewrite <- Hr, <- Hc, !bdim_same.
  do 2 f_equal. apply map_ext_in. intros p Hp%in_seq.
  rewrite !bcell_flat; try done; lia.
Qed.

Lemma broadcast2_stretch `{Inhabited A, Inhabited B} {C} (f : A -> B -> C)
    (a : array2 A) (b : array2 B) :
  (rows2 a = rows2 b \/ rows2 a = 1%nat) ->
  (cols2 a = cols2 b \/ cols2 a = 1%nat) ->
  exists cells, broadcast2 f a b = Ok (Array2 (rows2 b) (cols2 b) cells).
Proof.
  intros Hr Hc. unfold broadcast2. rewrite (bdim_stretch _ _ Hr), (bdim_stretch _ _ Hc).
  by eexists.
Qed.

Lemma div_mod_last (p k n : nat) :
  (k < n)%nat -> ((p * n + k) / n = p /\ (p * n + k) mod n = k)%nat.
Proof.
  intros Hk. split.
  - rewrite Nat.div_add_l by lia. rewrite Nat.div_small by lia. lia.
  - rewrite Nat.add_comm, Nat.Div0.mod_add. by apply Nat.mod_small.
Qed.

Lemma set_last_dims {A} `{Inhabited B} (cast : B -> A) (a : array3 A) (k : nat)
    (v : array2 B) :
  (k < dim2 a)%nat ->
  (rows2 v = dim0 a \/ rows2 v = 1%nat) ->
  (cols2 v = dim1 a \/ cols2 v = 1%nat) ->
  exists a', set_last cast a k v = Ok a'
    /\ dim0 a' = dim0 a /\ dim1 a' = dim1 a /\ dim2 a' = dim2 a
    /\ length (cells3 a') = length (cells3 a).
Proof.
  intros Hk Hr Hc. unfold set_last.
  destruct (decide (k < dim2 a)%nat); [|done].
  destruct (decide _) as [_|Hn]; [|tauto].
  eexists. split; [done|]. simpl. repeat split; try done.
  by rewrite length_imap.
Qed.

Lemma set_last_cells `{Inhabited A, Inhabited B} (cast : B -> A) (a a' : array3 A)
    (k : nat) (v : array2 B) (p j : nat) :
  set_last cast a k v = Ok a' ->
  rows2 v = dim0 a -> cols2 v = dim1 a ->
  (p < dim0 a * dim1 a)%nat -> (j < dim2 a)%nat ->
  (p * dim2 a + j < length (cells3 a))%nat ->
  cells3 a' !!! (p * dim2 a + j)%nat
  = if decide (j = k) then cast (cells2 v !!! p)
    else cells3 a !!! (p * dim2 a + j)%nat.
Proof.
  unfold set_last. intros Hset Hr Hc Hp Hj Hlen.
  destruct (decide (k < dim2 a)%nat); [|done].
  destruct (decide _) as [_|Hn]; [|done].
  injection Hset as <-. simpl.
  apply list_lookup_total_correct. rewrite list_lookup_imap.
  destruct (lookup_lt_is_Some_2 (cells3 a) _ Hlen) as [x Hx].
  rewrite Hx. simpl. f_equal.
  destruct (div_mod_last p j (dim2 a) Hj) as [-> ->].
  destruct (decide (j = k)).
  - f_equal. rewrite bcell_flat; [done|done|]. rewrite Hr. done.
  - by apply list_lookup_total_correct in Hx.
Qed.

Lemma wf_last_slice `{Inhabited A} (a : array3 A) (k : nat) : wf_array2 (last_slice a k).
Proof. unfold wf_array2, last_slice. simpl. by rewrite length_map, length_seq. Qed.

Lemma get_last_run `{Inhabited A} (a : array3 A) (k : nat) :
  (k < dim2 a)%nat -> get_last a k = Ok (last_slice a k).
Proof. intros Hk. unfold get_last. by destruct (decide _). Qed.

Lemma np_max_ok (l : list Qc) : l <> [] -> exists top, np_max l = Ok top.
Proof. destruct l; [done|]. by eexists. Qed.

Lemma seq_lookup_Some (n i x : nat) : seq 0 n !! i = Some x -> x = i /\ (i < n)%nat.
Proof. intros H. apply lookup_seq in H. lia. Qed.

(** ** The store and the loops *)

Lemma mbind_run {A B} (m : M A) (k : A -> M B) (s s1 : state) (a : A) :
  m s = (Ok a, s1) -> mbind m k s = k a s1.
Proof. intros H. unfold mbind. by rewrite H. Qed.

Lemma for_each_run {A T} (Inv : nat -> T -> state -> Prop) (l : list A)
    (body : A -> T -> M T) (acc : T) (s : state) :
  Inv 0%nat acc s ->
  (forall i x acc s, l !! i = Some x -> Inv i acc s ->
     exists acc' s', body x acc s = (Ok acc', s') /\ Inv (S i) acc' s') ->
  exists acc' s', for_each l body acc s = (Ok acc', s') /\ Inv (length l) acc' s'.
Proof.
  revert Inv acc s. induction l as [|x l IH]; intros Inv acc s H0 Hstep.
  - by exists acc, s.
  - destruct (Hstep 0%nat x acc s eq_refl H0) as (acc1 & s1 & Hb & H1).
    destruct (IH (fun i => Inv (S i)) acc1 s1 H1) as (acc2 & s2 & Hl & H2).
    { intros i y acc' s' Hy. by apply (Hstep (S i)). }
    exists acc2, s2. split; [|done]. simpl. by rewrite (mbind_run _ _ _ _ _ Hb).
Qed.

Lemma deref_run (l : loc) (a : Image) (s : state) :
  heap s !! l = Some a -> deref l s = (Ok a, s).
Proof. intros H. unfold deref. by rewrite H. Qed.

Lemma np_copy_run (l : loc) (a : Image) (s : state) :
  heap s !! l = Some a ->
  np_copy l s = (Ok (fresh (dom (heap s))),
                 State (<[fresh (dom (heap s)) := a]> (heap s)) (stdout s)).
Proof. intros H. unfold np_copy. by rewrite (mbind_run _ _ _ _ _ (deref_run _ _ _ H)). Qed.

Lemma fresh_loc_ne (l : loc) (a : Image) (s : state) :
  heap s !! l = Some a -> l <> fresh (dom (heap s)).
Proof.
  intros H E. apply (is_fresh (dom (heap s))). rewrite <- E.
  apply elem_of_dom. by eexists.
Qed.

Lemma lift_run {A} (r : A) (s : state) : lift (Ok r) s = (Ok r, s).
Proof. done. Qed.

Lemma getitem_last_run (l : loc) (k : nat) (a : Image) (s : state) :
  heap s !! l = Some a -> (k < dim2 a)%nat ->
  getitem_last l k s = (Ok (last_slice a k), s).
Proof.
  intros Hl Hk. unfold getitem_last.
  rewrite (mbind_run _ _ _ _ _ (deref_run _ _ _ Hl)). by rewrite get_last_run.
Qed.

Lemma dict_get_run {A} (d : gmap nat A) (k : nat) (x : A) :
  d !! k = Some x -> dict_get d k = Ok x.
Proof. intros H. unfold dict_get. by rewrite H. Qed.

Lemma index_run {A} (l : list A) (i : nat) (x : A) : l !! i = Some x -> index l i = Ok x.
Proof. intros H. unfold index. by rewrite H. Qed.

(** ** The orientation bins *)

Lemma np_pi_pos : 0 < np_pi.
Proof. by_compute. Qed.

Lemma range_ne_0 : np_pi - - np_pi <> 0.
Proof.
  replace (np_pi - - np_pi) with (np_pi + np_pi) by ring.
  apply Qc_double_ne_0. intros E. pose proof np_pi_pos as H. rewrite E in H.
  by apply Qclt_not_eq in H.
Qed.

Lemma step_count (range n : Qc) : range <> 0 -> n <> 0 -> range / (range / n) = n.
Proof. intros. by field. Qed.

Lemma last_boundary (pi n : Qc) : n <> 0 -> - pi + n * ((pi - - pi) / n) = pi.
Proof. intros. by field. Qed.

Lemma np_arange_bins (no_bins : Z) :
  (0 < no_bins)%Z ->
  np_arange (- np_pi) np_pi (bin_step no_bins)
  = map (bin_boundary no_bins) (seq 0 (Z.to_nat no_bins)).
Proof.
  intros Hn. unfold np_arange, bin_step.
  rewrite step_count by (apply range_ne_0 || (apply Qc_of_Z_ne_0; lia)).
  change (this (Qc_of_Z no_bins)) with (inject_Z no_bins). by rewrite Qceiling_Z.
Qed.

Lemma bin_orientations_boundaries (no_bins : Z) :
  (0 < no_bins)%Z ->
  bin_orientations (bin_step no_bins)
  = map (bin_boundary no_bins) (seq 0 (S (Z.to_nat no_bins))).
Proof.
  intros Hn. unfold bin_orientations. rewrite np_arange_bins by done.
  rewrite seq_S, map_app. f_equal. simpl. f_equal.
  unfold bin_boundary, bin_step. rewrite Z2Nat.id by lia.
  symmetry. apply last_boundary. apply Qc_of_Z_ne_0. lia.
Qed.

Lemma bin_boundary_width (no_bins : Z) (j : nat) :
  bin_boundary no_bins (S j) - bin_boundary no_bins j = bin_step no_bins.
Proof.
  unfold bin_boundary. rewrite Nat2Z.inj_succ, <- Z.add_1_r, Z2Qc_inj_add, Z2Qc_inj_1.
  ring.
Qed.

Lemma bin_step_pos (no_bins : Z) : (0 < no_bins)%Z -> 0 < bin_step no_bins.
Proof.
  intros Hn. unfold bin_step, Qcdiv. apply Qcmult_pos_pos.
  - replace (np_pi - - np_pi) with (np_pi + np_pi) by ring.
    apply Qcplus_pos_pos; apply np_pi_pos.
  - apply Qcinv_pos. rewrite <- Z2Qc_inj_0. by apply (proj1 (Z2Qc_inj_lt _ _)).
Qed.

Lemma bin_boundary_mono (no_bins : Z) (j k : nat) :
  (0 < no_bins)%Z -> (j <= k)%nat -> bin_boundary no_bins j ≤ bin_boundary no_bins k.
Proof.
  intros Hn Hjk. unfold bin_boundary.
  apply Qcplus_le_mono_l. apply Qcmult_le_compat_r.
  - apply (proj1 (Z2Qc_inj_le _ _)). lia.
  - apply Qclt_le_weak. by apply bin_step_pos.
Qed.

Lemma bin_boundary_first (no_bins : Z) : bin_boundary no_bins 0 = - np_pi.
Proof. unfold bin_boundary. change (Z.of_nat 0) with 0%Z. rewrite Z2Qc_inj_0. ring. Qed.

Lemma bin_boundary_last (no_bins : Z) :
  (0 < no_bins)%Z -> bin_boundary no_bins (Z.to_nat no_bins) = np_pi.
Proof.
  intros Hn. unfold bin_boundary, bin_step. rewrite Z2Nat.id by lia.
  apply last_boundary. apply Qc_of_Z_ne_0. lia.
Qed.

(** A pixel whose orientation is a boundary is in no bin. *)
Lemma boundary_in_no_bin (no_bins : Z) (j k : nat) (m t : Qc) :
  (0 < no_bins)%Z ->
  ~ pixel_in_bin (bin_boundary no_bins j) m
      (bin_boundary no_bins k) (bin_boundary no_bins (S k)) t.
Proof.
  intros Hn (Hlo & Hhi & _).
  destruct (decide (j <= k)%nat) as [Hjk|Hjk].
  - apply (Qclt_not_le _ _ Hlo). by apply bin_boundary_mono.
  - apply (Qclt_not_le _ _ Hhi). apply bin_boundary_mono; [done|lia].
Qed.

Lemma pixel_indicator_spec o m lo hi t :
  pixel_indicator o m lo hi t = if decide (pixel_in_bin o m lo hi t) then 1%Z else 0%Z.
Proof.
  unfold pixel_indicator, pixel_in_bin, lt_int, gt_int.
  destruct (decide (lo < o)), (decide (o < hi)), (decide (t < m)),
    (decide (lo < o /\ o < hi /\ t < m)); try tauto; reflexivity.
Qed.

Lemma bin_indicator_cells (g : gradient) (lo hi t : Qc) :
  wf_array2 (ori g) -> wf_array2 (mag g) ->
  rows2 (mag g) = rows2 (ori g) -> cols2 (mag g) = cols2 (ori g) ->
  bin_indicator g lo hi t
  = Ok (Array2 (rows2 (ori g)) (cols2 (ori g))
          (map (fun p => pixel_indicator (cells2 (ori g) !!! p) (cells2 (mag g) !!! p) lo hi t)
               (seq 0 (rows2 (ori g) * cols2 (ori g))))).
Proof.
  unfold wf_array2. intros Wo Wm Hr Hc. unfold bin_indicator.
  rewrite (broadcast2_same_shape Z.land) by done. cbn [rbind].
  rewrite (broadcast2_same_shape Z.land) by done. cbn [rows2 cols2 cells2 map2].
  do 2 f_equal. apply map_ext_in. intros p Hp%in_seq.
  rewrite (lookup_total_tabulate (A:=Z)) by lia.
  rewrite !(lookup_total_map (A:=Qc) (B:=Z)) by lia. done.
Qed.

Lemma length_flat_blocks {A} (f : nat -> list A) (c B : nat) :
  (forall i, (i < c)%nat -> length (f i) = B) ->
  length (flat_map f (seq 0 c)) = (c * B)%nat.
Proof.
  induction c as [|c IH]; intros Hlen; [done|].
  rewrite seq_S, flat_map_app, length_app. cbn [flat_map Nat.add]. rewrite app_nil_r.
  rewrite IH by (intros; apply Hlen; lia). rewrite (Hlen c) by lia. lia.
Qed.

Lemma lookup_flat_blocks {A} (f : nat -> list A) (c B ch k : nat) :
  (forall i, (i < c)%nat -> length (f i) = B) -> (ch < c)%nat -> (k < B)%nat ->
  flat_map f (seq 0 c) !! (ch * B + k)%nat = f ch !! k.
Proof.
  induction c as [|c IH]; intros Hlen Hch Hk; [lia|].
  rewrite seq_S, flat_map_app. cbn [flat_map Nat.add]. rewrite app_nil_r.
  assert (Hl : length (flat_map f (seq 0 c)) = (c * B)%nat).
  { apply length_flat_blocks. intros; apply Hlen; lia. }
  destruct (decide (ch = c)) as [->|Hne].
  - rewrite lookup_app_r by lia. f_equal. lia.
  - rewrite lookup_app_l by nia. apply IH; [|lia|done]. intros; apply Hlen; lia.
Qed.


(** ** The descriptor, phase by phase *)

Section SiftFacts.

Variable G : array2 Z -> Qc -> result gradient.

(** The first phase: the copy and the masking of its first three
    channels leave a working copy of the shape of the image at a fresh
    location, and the image where it was. *)
Lemma mask_loop_run (image im : loc) (img : Image) (mk : array2 Z) (s : state) :
  image <> im ->
  heap s !! image = Some img ->
  (exists w, heap s !! im = Some w
     /\ dim0 w = dim0 img /\ dim1 w = dim1 img /\ dim2 w = dim2 img) ->
  mask_fits img (Some mk) ->
  exists s',
    for_each (seq 0 3)
      (fun i _ =>
         channel <- getitem_last image i ;;
         masked <- lift (broadcast2 Z.mul mk channel) ;;
         setitem_last im i masked)%M tt s = (Ok tt, s')
    /\ heap s' !! image = Some img
    /\ exists w, heap s' !! im = Some w
         /\ dim0 w = dim0 img /\ dim1 w = dim1 img /\ dim2 w = dim2 img.
Proof.
  intros Hne Himg Hw (Hc & Hr & Hcol).
  destruct (for_each_run
    (fun _ (_ : unit) s => heap s !! image = Some img
       /\ exists w, heap s !! im = Some w
            /\ dim0 w = dim0 img /\ dim1 w = dim1 img /\ dim2 w = dim2 img)
    (seq 0 3)
    (fun i _ =>
       channel <- getitem_last image i ;;
       masked <- lift (broadcast2 Z.mul mk channel) ;;
       setitem_last im i masked)%M tt s) as ([] & s' & Hrun & Hi & Hw').
  - done.
  - clear s Himg Hw. intros i x [] s [-> Hi]%seq_lookup_Some (Himg & w & Hw & H0 & H1 & H2).
    cbv beta. assert (Hi' : (i < dim2 img)%nat) by lia.
    rewrite (mbind_run _ _ _ _ _ (getitem_last_run _ _ _ _ Himg Hi')).
    destruct (broadcast2_stretch Z.mul mk (last_slice img i) Hr Hcol) as (cells & ->).
    rewrite (mbind_run _ _ _ _ _ (lift_run _ _)).
    unfold setitem_last.
    rewrite (mbind_run _ _ _ _ _ (deref_run _ _ _ Hw)).
    destruct (set_last_dims to_uint8 w i (Array2 (dim0 img) (dim1 img) cells))
      as (w' & Hset & ? & ? & ? & ?); simpl; [lia|left; congruence|left; congruence|].
    rewrite Hset. rewrite (mbind_run _ _ _ _ _ (lift_run _ _)).
    eexists tt, _. split; [done|]. simpl.
    rewrite lookup_insert_ne by done. rewrite lookup_insert_eq.
    split; [done|]. exists w'. repeat split; congruence.
  - exists s'. done.
Qed.

Lemma gradient_loop_run (im : loc) (w : Image) (sigma th : Qc) (s : state) :
  same_shape_gradients G ->
  heap s !! im = Some w ->
  (0 < dim0 w)%nat -> (0 < dim1 w)%nat ->
  exists tables,
    for_each (seq 0 (dim2 w))
      (fun channel '(gradients, thresholds) =>
         plane <- getitem_last im channel ;;
         g <- lift (G plane sigma) ;;
         top <- lift (np_max (cells2 (mag g))) ;;
         mret (<[channel := g]> gradients, <[channel := th * top]> thresholds))%M
      ((∅ : gmap nat gradient), (∅ : gmap nat Qc)) s
    = (Ok tables, s)
    /\ tables_for G w sigma th (dim2 w) tables.
Proof.
  intros HG Hw H0 H1.
  destruct (for_each_run
    (fun i tables s' => s' = s /\ tables_for G w sigma th i tables)
    (seq 0 (dim2 w))
    (fun channel '(gradients, thresholds) =>
       plane <- getitem_last im channel ;;
       g <- lift (G plane sigma) ;;
       top <- lift (np_max (cells2 (mag g))) ;;
       mret (<[channel := g]> gradients, <[channel := th * top]> thresholds))%M
    ((∅ : gmap nat gradient), (∅ : gmap nat Qc)) s)
    as (tables & s' & Hrun & -> & Ht).
  - split; [done|]. intros ch Hch. lia.
  - intros i x [gr thr] s' [-> Hi]%seq_lookup_Some [-> Ht].
    rewrite (mbind_run _ _ _ _ _ (getitem_last_run _ _ _ _ Hw Hi)).
    destruct (HG (last_slice w i) sigma (wf_last_slice w i))
      as (g & Hg & Hor & Hoc & Hmr & Hmc & Wo & Wm).
    rewrite Hg. rewrite (mbind_run _ _ _ _ _ (lift_run _ _)).
    destruct (np_max_ok (cells2 (mag g))) as [top Htop].
    { intros E. unfold wf_array2 in Wm. rewrite E, Hmr, Hmc in Wm. simpl in Wm. nia. }
    rewrite Htop. rewrite (mbind_run _ _ _ _ _ (lift_run _ _)).
    eexists _, s. split; [reflexivity|]. split; [done|].
    intros ch Hch. destruct (decide (ch = i)) as [->|Hne].
    + exists g, top. simpl. rewrite !lookup_insert_eq. repeat split; done.
    + destruct (Ht ch) as (g' & top' & ? & ? & ? & ? & ?); [lia|].
      exists g', top'. simpl. rewrite !lookup_insert_ne by done. done.
  - rewrite length_seq in Ht. exists tables. split; [exact Hrun | exact Ht].
Qed.

Lemma zeros_loop_run (c d0 d1 : nat) (no_bins : Z) (s : state) :
  (0 <= no_bins)%Z ->
  exists hists,
    for_each (seq 0 c)
      (fun channel histograms =>
         z <- lift (np_zeros3 d0 d1 no_bins) ;;
         mret (<[channel := z]> histograms))%M
      (∅ : gmap nat (array3 Qc)) s
    = (Ok hists, s)
    /\ forall ch, (ch < c)%nat ->
         hists !! ch
         = Some (Array3 d0 d1 (Z.to_nat no_bins)
                   (replicate (d0 * d1 * Z.to_nat no_bins) 0)).
Proof.
  intros Hn.
  destruct (for_each_run
    (fun i (hists : gmap nat (array3 Qc)) s' => s' = s
       /\ forall ch, (ch < i)%nat ->
            hists !! ch
            = Some (Array3 d0 d1 (Z.to_nat no_bins)
                      (replicate (d0 * d1 * Z.to_nat no_bins) 0)))
    (seq 0 c)
    (fun channel histograms =>
       z <- lift (np_zeros3 d0 d1 no_bins) ;;
       mret (<[channel := z]> histograms))%M
    (∅ : gmap nat (array3 Qc)) s) as (hists & s' & Hrun & -> & Hz).
  - split; [done|]. intros; lia.
  - intros i x hists s' [-> Hi]%seq_lookup_Some [-> Hz].
    unfold np_zeros3. destruct (decide (no_bins < 0)%Z); [lia|].
    rewrite (mbind_run _ _ _ _ _ (lift_run _ _)).
    eexists _, s. split; [reflexivity|]. split; [done|].
    intros ch Hch. destruct (decide (ch = i)) as [->|Hne].
    + by rewrite lookup_insert_eq.
    + rewrite lookup_insert_ne by done. apply Hz. lia.
  - rewrite length_seq in Hz. exists hists. split; [exact Hrun | exact Hz].
Qed.

Lemma filled_ext d0 d1 no_bins gradients thresholds c upto upto' hists :
  (forall ch, (ch < c)%nat -> upto ch = upto' ch) ->
  filled d0 d1 no_bins gradients thresholds c upto hists ->
  filled d0 d1 no_bins gradients thresholds c upto' hists.
Proof.
  intros E Hf ch Hch. destruct (Hf ch Hch) as (h & ? & ? & ? & ? & ? & Hcells).
  exists h. repeat split; try done. intros. rewrite <- E by done. by apply Hcells.
Qed.

Lemma channel_fill_run (d0 d1 c k : nat) (no_bins : Z)
    (gradients : gmap nat gradient) (thresholds : gmap nat Qc)
    (hists : gmap nat (array3 Qc)) (s : state) :
  (k < Z.to_nat no_bins)%nat ->
  tables_fit d0 d1 c gradients thresholds ->
  filled d0 d1 no_bins gradients thresholds c (fun _ => k) hists ->
  exists hists',
    for_each (seq 0 c)
      (fun channel histograms =>
         hist <- lift (dict_get histograms channel) ;;
         g <- lift (dict_get gradients channel) ;;
         t <- lift (dict_get thresholds channel) ;;
         ind <- lift (bin_indicator g (bin_boundary no_bins k)
                        (bin_boundary no_bins (S k)) t) ;;
         hist' <- lift (set_last Qc_of_Z hist k ind) ;;
         mret (<[channel := hist']> histograms))%M
      hists s
    = (Ok hists', s)
    /\ filled d0 d1 no_bins gradients thresholds c (fun _ => S k) hists'.
Proof.
  intros Hk Ht Hf.
  destruct (for_each_run
    (fun i hists' s' => s' = s
       /\ filled d0 d1 no_bins gradients thresholds c
            (fun ch => if decide (ch < i)%nat then S k else k) hists')
    (seq 0 c)
    (fun channel histograms =>
       hist <- lift (dict_get histograms channel) ;;
       g <- lift (dict_get gradients channel) ;;
       t <- lift (dict_get thresholds channel) ;;
       ind <- lift (bin_indicator g (bin_boundary no_bins k)
                      (bin_boundary no_bins (S k)) t) ;;
       hist' <- lift (set_last Qc_of_Z hist k ind) ;;
       mret (<[channel := hist']> histograms))%M
    hists s) as (hists' & s' & Hrun & -> & Hf').
  - split; [done|]. eapply filled_ext; [|exact Hf]. done.
  - clear hists Hf. intros i x hists s' [-> Hi]%seq_lookup_Some [-> Hf].
    destruct (Hf i Hi) as (h & Hh & Hd0 & Hd1 & Hd2 & Hlen & Hcells).
    destruct (Ht i Hi) as (g & t & Hg & Hthr & Hor & Hoc & Hmr & Hmc & Wo & Wm).
    cbv beta.
    rewrite (dict_get_run _ _ _ Hh), (mbind_run _ _ _ _ _ (lift_run _ _)).
    rewrite (dict_get_run _ _ _ Hg), (mbind_run _ _ _ _ _ (lift_run _ _)).
    rewrite (dict_get_run _ _ _ Hthr), (mbind_run _ _ _ _ _ (lift_run _ _)).
    rewrite bin_indicator_cells by congruence.
    rewrite (mbind_run _ _ _ _ _ (lift_run _ _)).
    match goal with |- context [set_last Qc_of_Z h k ?v] => set (ind := v) end.
    destruct (set_last_dims Qc_of_Z h k ind) as (h' & Hset & Hd0' & Hd1' & Hd2' & Hlen');
      [lia | left; simpl; congruence | left; simpl; congruence |].
    rewrite Hset, (mbind_run _ _ _ _ _ (lift_run _ _)).
    eexists _, s. split; [reflexivity|]. split; [done|].
    intros ch Hch. destruct (decide (ch = i)) as [->|Hne].
    + exists h'. rewrite lookup_insert_eq. repeat split; try congruence.
      intros g' t' p j Hg' Ht' Hp Hj.
      assert (g' = g) as -> by congruence. assert (t' = t) as -> by congruence.
      rewrite <- Hd2.
      rewrite (set_last_cells Qc_of_Z h h' k ind p j Hset); simpl; try congruence; try lia.
      2:{ rewrite Hlen, Hd2. rewrite <- Hd2 in Hj. nia. }
      destruct (decide (i < S i)%nat) as [_|]; [|lia].
      destruct (decide (j = k)) as [->|Hjk].
      * destruct (decide (k < S k)%nat); [|lia]. f_equal.
        unfold ind. simpl. rewrite (lookup_total_tabulate (A:=Z)) by (rewrite Hor, Hoc; lia).
        done.
      * rewrite Hd2. rewrite (Hcells g t p j Hg Hthr Hp Hj).
        destruct (decide (i < i)%nat); [lia|].
        destruct (decide (j < k)%nat), (decide (j < S k)%nat); try lia; done.
    + destruct (Hf ch Hch) as (hc & ? & ? & ? & ? & ? & Hc).
      exists hc. rewrite lookup_insert_ne by done. repeat split; try done.
      intros g' t' p j Hg' Ht' Hp Hj. rewrite (Hc g' t' p j Hg' Ht' Hp Hj).
      destruct (decide (ch < i)%nat), (decide (ch < S i)%nat); try lia; done.
  - rewrite length_seq in Hf'. exists hists'. split; [exact Hrun|].
    eapply filled_ext; [|exact Hf']. intros ch Hch. simpl.
    by destruct (decide (ch < c)%nat).
Qed.

Lemma fill_loop_run (d0 d1 c : nat) (no_bins : Z) (orientations : list Qc)
    (gradients : gmap nat gradient) (thresholds : gmap nat Qc)
    (hists : gmap nat (array3 Qc)) (s : state) :
  orientations = map (bin_boundary no_bins) (seq 0 (S (Z.to_nat no_bins))) ->
  tables_fit d0 d1 c gradients thresholds ->
  filled d0 d1 no_bins gradients thresholds c (fun _ => 0%nat) hists ->
  exists hists',
    for_each (seq 0 (length orientations - 1))
      (fun ori_bin histograms =>
         lo <- lift (index orientations ori_bin) ;;
         hi <- lift (index orientations (ori_bin + 1)) ;;
         for_each (seq 0 c)
           (fun channel histograms =>
              hist <- lift (dict_get histograms channel) ;;
              g <- lift (dict_get gradients channel) ;;
              t <- lift (dict_get thresholds channel) ;;
              ind <- lift (bin_indicator g lo hi t) ;;
              hist' <- lift (set_last Qc_of_Z hist ori_bin ind) ;;
              mret (<[channel := hist']> histograms))
           histograms)%M
      hists s
    = (Ok hists', s)
    /\ filled d0 d1 no_bins gradients thresholds c (fun _ => Z.to_nat no_bins) hists'.
Proof.
  intros Hos Ht Hf.
  assert (Hlen : (length orientations - 1 = Z.to_nat no_bins)%nat).
  { rewrite Hos, length_map, length_seq. lia. }
  assert (Hlook : forall j, (j <= Z.to_nat no_bins)%nat ->
                    orientations !! j = Some (bin_boundary no_bins j)).
  { intros j Hj. rewrite Hos, list_lookup_fmap, lookup_seq_lt by lia. done. }
  destruct (for_each_run
    (fun k hists' s' => s' = s
       /\ filled d0 d1 no_bins gradients thresholds c (fun _ => k) hists')
    (seq 0 (length orientations - 1))
    (fun ori_bin histograms =>
       lo <- lift (index orientations ori_bin) ;;
       hi <- lift (index orientations (ori_bin + 1)) ;;
       for_each (seq 0 c)
         (fun channel histograms =>
            hist <- lift (dict_get histograms channel) ;;
            g <- lift (dict_get gradients channel) ;;
            t <- lift (dict_get thresholds channel) ;;
            ind <- lift (bin_indicator g lo hi t) ;;
            hist' <- lift (set_last Qc_of_Z hist ori_bin ind) ;;
            mret (<[channel := hist']> histograms))
         histograms)%M
    hists s) as (hists' & s' & Hrun & -> & Hf').
  - done.
  - clear hists Hf. intros k x hists s' [-> Hk]%seq_lookup_Some [-> Hf].
    rewrite Hlen in Hk. cbv beta.
    rewrite (index_run _ _ _ (Hlook k ltac:(lia))), (mbind_run _ _ _ _ _ (lift_run _ _)).
    rewrite (index_run _ _ _ (Hlook (k + 1)%nat ltac:(lia))),
      (mbind_run _ _ _ _ _ (lift_run _ _)).
    replace (k + 1)%nat with (S k) by lia.
    destruct (channel_fill_run d0 d1 c k no_bins gradients thresholds hists s Hk Ht Hf)
      as (hists' & Hrun & Hf').
    exists hists', s. split; [exact Hrun|]. done.
  - rewrite length_seq, Hlen in Hf'. exists hists'. split; [exact Hrun | exact Hf'].
Qed.

Lemma sum_loop_run (c : nat) (hists : gmap nat (array3 Qc)) (s : state) :
  (forall ch, (ch < c)%nat -> is_Some (hists !! ch)) ->
  for_each (seq 0 c)
    (fun channel hist =>
       h <- lift (dict_get hists channel) ;;
       mret (hist ++ np_sum01 h))%M
    [] s
  = (Ok (flat_map (block hists) (seq 0 c)), s).
Proof.
  intros Hall.
  destruct (for_each_run
    (fun i acc s' => s' = s /\ acc = flat_map (block hists) (seq 0 i))
    (seq 0 c)
    (fun channel hist =>
       h <- lift (dict_get hists channel) ;;
       mret (hist ++ np_sum01 h))%M
    [] s) as (acc & s' & Hrun & -> & ->).
  - done.
  - intros i x acc s' [-> Hi]%seq_lookup_Some [-> ->].
    destruct (Hall i Hi) as [h Hh]. cbv beta.
    rewrite (dict_get_run _ _ _ Hh), (mbind_run _ _ _ _ _ (lift_run _ _)).
    eexists _, s. split; [reflexivity|]. split; [done|].
    rewrite seq_S, flat_map_app. cbn [flat_map Nat.add]. rewrite app_nil_r.
    f_equal. unfold block. by rewrite Hh.
  - by rewrite length_seq in Hrun.
Qed.

Lemma block_counts (d0 d1 c : nat) (no_bins : Z)
    (gradients : gmap nat gradient) (thresholds : gmap nat Qc)
    (hists : gmap nat (array3 Qc)) (ch k : nat) (g : gradient) (t : Qc) :
  filled d0 d1 no_bins gradients thresholds c (fun _ => Z.to_nat no_bins) hists ->
  (ch < c)%nat -> (k < Z.to_nat no_bins)%nat ->
  gradients !! ch = Some g -> thresholds !! ch = Some t ->
  length (block hists ch) = Z.to_nat no_bins
  /\ block hists ch !! k
     = Some (bin_count g t (bin_boundary no_bins k) (bin_boundary no_bins (S k))
               (d0 * d1)).
Proof.
  intros Hf Hch Hk Hg Ht.
  destruct (Hf ch Hch) as (h & Hh & Hd0 & Hd1 & Hd2 & Hlen & Hcells).
  unfold block. rewrite Hh. unfold np_sum01.
  split; [by rewrite length_map, length_seq|].
  rewrite list_lookup_fmap, lookup_seq_lt by lia. simpl. f_equal.
  rewrite Hd0, Hd1, Hd2. unfold bin_count.
  rewrite <- Qcsum_indicators. f_equal. apply map_ext_in. intros p Hp%in_seq.
  rewrite (Hcells g t p k Hg Ht) by lia.
  destruct (decide (k < Z.to_nat no_bins)%nat); [|lia].
  by rewrite pixel_indicator_spec.
Qed.

Lemma sift_histogram_counts (image : loc) (sigma : Qc) (no_bins : Z) (th : Qc)
    (mask : option (array2 Z)) (s : state) (img : Image) :
  same_shape_gradients G ->
  heap s !! image = Some img ->
  (0 < dim0 img)%nat -> (0 < dim1 img)%nat -> (0 < no_bins)%Z ->
  mask_fits img mask ->
  exists (work : Image) (hist : list Qc) (s' : state),
    sift_histogram G image sigma no_bins th mask s = (Ok hist, s')
    /\ dim0 work = dim0 img /\ dim1 work = dim1 img /\ dim2 work = dim2 img
    /\ (mask = None -> work = img)
    /\ length hist = (dim2 img * Z.to_nat no_bins)%nat
    /\ forall ch, (ch < dim2 img)%nat ->
         exists g top,
           G (last_slice work ch) sigma = Ok g
           /\ np_max (cells2 (mag g)) = Ok top
           /\ forall k, (k < Z.to_nat no_bins)%nat ->
                hist !! (ch * Z.to_nat no_bins + k)%nat
                = Some (bin_count g (th * top) (bin_boundary no_bins k)
                          (bin_boundary no_bins (S k)) (dim0 img * dim1 img)).
Proof.
  intros HG Himg H0 H1 Hn Hmask. unfold sift_histogram.
  rewrite (mbind_run _ _ _ _ _ (np_copy_run _ _ _ Himg)).
  pose proof (fresh_loc_ne _ _ _ Himg) as Hne.
  set (im := fresh (dom (heap s))) in *.
  set (s1 := State (<[im := img]> (heap s)) (stdout s)).
  assert (Himg1 : heap s1 !! image = Some img) by (simpl; by rewrite lookup_insert_ne).
  assert (Him1 : heap s1 !! im = Some img) by (simpl; by rewrite lookup_insert_eq).
  assert (exists s2 w,
    match mask with
    | Some mk =>
        for_each (seq 0 3)
          (fun i _ =>
             channel <- getitem_last image i ;;
             masked <- lift (broadcast2 Z.mul mk channel) ;;
             setitem_last im i masked)%M tt
    | None => mret tt
    end s1 = (Ok tt, s2)
    /\ heap s2 !! im = Some w
    /\ dim0 w = dim0 img /\ dim1 w = dim1 img /\ dim2 w = dim2 img
    /\ (mask = None -> w = img)) as (s2 & w & Hrun & Hw & Hd0 & Hd1 & Hd2 & Hnone).
  { destruct mask as [mk|].
    - destruct (mask_loop_run image im img mk s1 Hne Himg1) as (s2 & Hrun & _ & w & Hw & H);
        [by exists img | done |].
      exists s2, w. split; [exact Hrun|]. split; [done|].
      destruct H as (? & ? & ?). repeat split; try done.
    - exists s1, img. done. }
  rewrite (mbind_run _ _ _ _ _ Hrun).
  rewrite (mbind_run _ _ _ _ _ (deref_run _ _ _ Hw)). cbv zeta.
  destruct (gradient_loop_run im w sigma th s2 HG Hw) as ([gr thr] & Hgrad & Ht);
    [lia | lia |].
  rewrite (mbind_run _ _ _ _ _ Hgrad).
  unfold py_float_div. destruct (decide (Qc_of_Z no_bins = 0)) as [E|_].
  { apply Qc_of_Z_ne_0 in E; [done|lia]. }
  rewrite (mbind_run _ _ _ _ _ (lift_run _ _)).
  destruct (zeros_loop_run (dim2 w) (dim0 w) (dim1 w) no_bins s2) as (hists0 & Hz & Hz0);
    [lia|].
  rewrite (mbind_run _ _ _ _ _ Hz).
  assert (Htf : tables_fit (dim0 w) (dim1 w) (dim2 w) gr thr).
  { intros ch Hch. destruct (Ht ch Hch) as (g & top & _ & _ & ? & ? & ?).
    by exists g, (th * top). }
  assert (Hf0 : filled (dim0 w) (dim1 w) no_bins gr thr (dim2 w) (fun _ => 0%nat) hists0).
  { intros ch Hch. eexists. split; [by apply Hz0|]. simpl.
    repeat split; try done; [by rewrite length_replicate|].
    intros g t p j _ _ Hp Hj. destruct (decide (j < 0)%nat); [lia|].
    apply lookup_total_replicate_2. nia. }
  destruct (fill_loop_run (dim0 w) (dim1 w) (dim2 w) no_bins
              (bin_orientations (bin_step no_bins)) gr thr hists0 s2
              (bin_orientations_boundaries no_bins Hn) Htf Hf0) as (hists & Hfill & Hf).
  unfold bin_step in Hfill. rewrite (mbind_run _ _ _ _ _ Hfill).
  rewrite sum_loop_run.
  2:{ intros ch Hch. destruct (Hf ch Hch) as (h & -> & _). by eexists. }
  exists w, (flat_map (block hists) (seq 0 (dim2 w))), s2.
  split; [done|]. repeat split; try done.
  - rewrite <- Hd2. apply length_flat_blocks. intros ch Hch.
    destruct (Ht ch Hch) as (g & top & _ & _ & Hg & Hthr & _).
    assert (Hpos : (0 < Z.to_nat no_bins)%nat) by lia.
    apply (block_counts _ _ _ _ _ _ _ ch 0%nat g (th * top) Hf Hch Hpos Hg Hthr).
  - intros ch Hch. rewrite <- Hd2 in Hch.
    destruct (Ht ch Hch) as (g & top & HGg & Htop & Hg & Hthr & _).
    exists g, top. repeat split; try done. intros k Hk.
    rewrite (lookup_flat_blocks (block hists) (dim2 w) (Z.to_nat no_bins) ch k); try done.
    + rewrite <- Hd0, <- Hd1.
      apply (block_counts _ _ _ _ _ _ _ ch k g (th * top) Hf Hch Hk Hg Hthr).
    + intros i Hi. destruct (Ht i Hi) as (g' & top' & _ & _ & Hg' & Hthr' & _).
      apply (block_counts _ _ _ _ _ _ _ i k g' (th * top') Hf Hi Hk Hg' Hthr').
Qed.
End SiftFacts.

(** ** The frame of the descriptor *)

Lemma preserves_mret {A} (l : loc) (a : A) : preserves l (mret a).
Proof. done. Qed.

Lemma preserves_lift {A} (l : loc) (r : result A) : preserves l (lift r).
Proof. done. Qed.

Lemma preserves_print (l : loc) (line : string) : preserves l (print line).
Proof. done. Qed.

Lemma preserves_deref (l l' : loc) : preserves l (deref l').
Proof. intros s. unfold deref. by destruct (heap s !! l'). Qed.

Lemma preserves_mbind {A B} (l : loc) (m : M A) (k : A -> M B) :
  preserves l m -> (forall a, preserves l (k a)) -> preserves l (mbind m k).
Proof.
  intros Hm Hk s. unfold mbind. specialize (Hm s).
  destruct (m s) as [[a|e] s1]; simpl in *; [|done].
  by rewrite Hk.
Qed.

Lemma preserves_for_each {A T} (l : loc) (xs : list A) (body : A -> T -> M T) (acc : T) :
  (forall x acc, preserves l (body x acc)) -> preserves l (for_each xs body acc).
Proof.
  intros Hb. revert acc. induction xs as [|x xs IH]; intros acc; simpl.
  - apply preserves_mret.
  - apply preserves_mbind; [apply Hb | apply IH].
Qed.

Lemma preserves_getitem_last (l l' : loc) (k : nat) : preserves l (getitem_last l' k).
Proof.
  apply preserves_mbind; [apply preserves_deref | intros; apply preserves_lift].
Qed.

(** A write through [l'] leaves every other object as it is. *)
Lemma preserves_setitem_last (l l' : loc) (k : nat) (v : array2 Z) :
  l <> l' -> preserves l (setitem_last l' k v).
Proof.
  intros Hne. unfold setitem_last.
  apply preserves_mbind; [apply preserves_deref | intros a].
  apply preserves_mbind; [apply preserves_lift | intros a'].
  intros s. simpl. by rewrite lookup_insert_ne.
Qed.

Ltac preserves_step :=
  first
    [ apply preserves_mret
    | apply preserves_lift
    | apply preserves_print
    | apply preserves_deref
    | apply preserves_getitem_last
    | apply preserves_setitem_last; congruence
    | apply preserves_for_each; intros
    | apply preserves_mbind; [|intros]
    | match goal with
      | |- preserves _ (match ?x with _ => _ end) => destruct x
      end ].

Section DescriptorFacts.

Variable G : array2 Z -> Qc -> result gradient.

Lemma sift_histogram_preserves (image : loc) (sigma : Qc) (no_bins : Z) (th : Qc)
    (mask : option (array2 Z)) (s : state) :
  heap (sift_histogram G image sigma no_bins th mask s).2 !! image = heap s !! image.
Proof.
  unfold sift_histogram.
  destruct (heap s !! image) as [img|] eqn:Himg.
  - rewrite (mbind_run _ _ _ _ _ (np_copy_run _ _ _ Himg)).
    pose proof (fresh_loc_ne _ _ _ Himg) as Hne.
    set (im := fresh (dom (heap s))) in *.
    match goal with
    | |- heap (?rest ?s1).2 !! _ = _ =>
        assert (Hrest : preserves image rest); [|rewrite Hrest]
    end.
    + repeat preserves_step.
    + simpl. by rewrite lookup_insert_ne.
  - unfold mbind at 1. unfold np_copy, mbind, deref. rewrite Himg. simpl. by rewrite Himg.
Qed.

(** C9: whatever the image, the mask and the other arguments, and whether
    the call returns or raises, the object at the caller's image location is
    after the call what it was before: the masking writes to the copy. *)
Theorem image_not_mutated (image : loc) (sigma : Qc) (no_bins : Z) (th : Qc)
    (mask : option (array2 Z)) (s : state) :
  heap (get_sift_features G image sigma no_bins th mask s).2 !! image = heap s !! image.
Proof.
  unfold get_sift_features, mbind.
  pose proof (sift_histogram_preserves image sigma no_bins th mask s) as H.
  destruct (sift_histogram G image sigma no_bins th mask s) as [[hist|e] s1]; [|done].
  simpl in H. by destruct (norm2_is_zero hist).
Qed.



End DescriptorFacts.

(** ** The descriptor on examples *)

Lemma map2_same_shape {A} (f g : A -> Qc) (plane : array2 A) :
  wf_array2 plane ->
  let gr := Gradient (map2 f plane) (map2 g plane) in
  rows2 (ori gr) = rows2 plane /\ cols2 (ori gr) = cols2 plane
  /\ rows2 (mag gr) = rows2 plane /\ cols2 (mag gr) = cols2 plane
  /\ wf_array2 (ori gr) /\ wf_array2 (mag gr).
Proof. unfold wf_array2. intros W. simpl. by rewrite !length_map. Qed.

Lemma example_gradient_same_shape : same_shape_gradients example_gradient.
Proof. intros plane sigma W. eexists. split; [done|]. by apply map2_same_shape. Qed.

Lemma gradient_at_pi_same_shape : same_shape_gradients gradient_at_pi.
Proof. intros plane sigma W. eexists. split; [done|]. by apply map2_same_shape. Qed.

(** The masking writes: the copy, at the fresh location 1, has the masked
    samples, and the image at location 0 the original ones. *)
Example masking_writes_the_copy :
  let s' := (get_sift_features example_gradient 0%nat 1 4 (q 1 10)
               (Some example_mask) example_state).2 in
  heap s' !! 1%nat
  = Some (Array3 2 2 3 [0; 10; 250; 0; 0; 0; 128; 128; 128; 200; 210; 90]%Z)
  /\ heap s' !! 0%nat = Some example_patch.
Proof. split; by_compute. Qed.




(** * Further properties *)

(** ** More on the parameter validator *)

Lemma foldl_max_le (bound x : Z) (xs : list Z) :
  (foldl Z.max x xs <= bound)%Z <-> (x <= bound)%Z /\ Forall (fun c => (c <= bound)%Z) xs.
Proof.
  revert x. induction xs as [|y xs IH]; intros x; simpl.
  - split; [intros; split; [done|constructor] | tauto].
  - rewrite IH, Forall_cons, Z.max_lub_iff. tauto.
Qed.

Lemma py_max_le (bound : Z) (l : list Z) :
  (exists m, py_max l = Ok m /\ (m <= bound)%Z)
  <-> l <> [] /\ Forall (fun c => (c <= bound)%Z) l.
Proof.
  destruct l as [|x xs]; simpl.
  - split; [by intros (m & ? & _) | by intros [? _]].
  - rewrite Forall_cons, <- foldl_max_le. split.
    + intros (m & [= <-] & H). done.
    + intros [_ H]. eauto.
Qed.

(** X1: the validator accepts exactly when the channel list is not empty,
    every requested channel index is below the number of rows of the image,
    there are as many bin counts as channels and twice as many range bounds,
    and the mask, if any, has as many rows as the image. *)
Theorem validator_accepts_iff (im : Image) (channels bins ranges : list Z)
    (mask : option (array2 Z)) :
  check_color_hist_params im channels bins ranges mask = Ok tt
  <-> channels <> []
      /\ Forall (fun c => (c < Z.of_nat (dim0 im))%Z) channels
      /\ length bins = length channels
      /\ length ranges = (2 * length channels)%nat
      /\ (forall mk, mask = Some mk -> rows2 mk = dim0 im).
Proof.
  rewrite check_color_hist_params_accepts, py_max_le.
  assert (Forall (fun c => (c <= Z.of_nat (dim0 im) - 1)%Z) channels
          <-> Forall (fun c => (c < Z.of_nat (dim0 im))%Z) channels) as ->.
  { apply Forall_proper; [|done]. intros c. lia. }
  split; intros ([? ?] & ? & ? & ?) || intros (? & ? & ? & ? & ?); repeat split; done.
Qed.

(** ** More on the weighted intersection *)

(** X2: for histograms of equal length the weighted intersection is
    symmetric: exchanging the two histograms with their sizes gives the same
    result, the same exception included. *)
Theorem intersection_symmetric (ha : list Qc) (a : Qc) (hb : list Qc) (b : Qc) :
  length ha = length hb ->
  normalized_histogram_intersection ha a hb b
  = normalized_histogram_intersection hb b ha a.
Proof.
  intros E. rewrite !intersection_equal_length by done.
  f_equal; ring.
Qed.

Lemma intersection_symmetric_witness :
  normalized_histogram_intersection [q 1 2; q 1 2; 0] (q 3 1) [q 1 4; 0; q 3 4] 1
  = normalized_histogram_intersection [q 1 4; 0; q 3 4] 1 [q 1 2; q 1 2; 0] (q 3 1).
Proof. apply intersection_symmetric. reflexivity. Defined.

(** X3: only the ratio of the two sizes matters: multiplying both by the
    same factor other than zero changes neither the value nor the
    exception. *)
Theorem intersection_scales_with_weights (ha : list Qc) (a : Qc) (hb : list Qc)
    (b k : Qc) :
  k <> 0 ->
  normalized_histogram_intersection ha (k * a) hb (k * b)
  = normalized_histogram_intersection ha a hb b.
Proof.
  intros Hk. destruct (decide (length ha = length hb)) as [E|Hne].
  - rewrite !intersection_equal_length by done. unfold py_float_div.
    destruct (decide (a + b = 0)) as [E0|Hab].
    + destruct (decide (k * a + k * b = 0)) as [_|Hn]; [done|].
      destruct Hn. transitivity (k * (a + b)); [ring|]. rewrite E0. ring.
    + destruct (decide (k * a + k * b = 0)) as [E0|Hkab].
      * replace (k * a + k * b) with (k * (a + b)) in E0 by ring.
        apply Qcmult_integral in E0. tauto.
      * f_equal. by field.
  - unfold normalized_histogram_intersection. by destruct (decide _).
Qed.

Lemma intersection_scales_with_weights_witness :
  normalized_histogram_intersection [q 1 2; q 1 2] (q 5 1 * q 3 1) [q 1 4; q 3 4] (q 5 1 * 1)
  = normalized_histogram_intersection [q 1 2; q 1 2] (q 3 1) [q 1 4; q 3 4] 1.
Proof. apply intersection_scales_with_weights. by_compute. Defined.

Lemma joint_support_bounds (h other : list Qc) :
  0 ≤ Qcsum (joint_support h other) /\ Qcsum (joint_support h other) ≤ norm1 h.
Proof.
  unfold joint_support, norm1. revert other.
  induction h as [|x h IH]; intros [|y other]; simpl; rewrite ?Qcsum_nil, ?Qcsum_cons.
  - split; apply Qcle_refl.
  - split; apply Qcle_refl.
  - split; [apply Qcle_refl|].
    apply Qcplus_nonneg_nonneg; [apply Qcabs_nonneg | apply norm1_nonneg].
  - destruct (IH other) as [Hlo Hhi]. destruct (decide (0 < x /\ 0 < y)) as [[Hx _]|_].
    + split.
      * apply Qcplus_nonneg_nonneg; [apply Qclt_le_weak; exact Hx | exact Hlo].
      * apply Qcplus_le_compat; [apply Qcle_Qcabs | exact Hhi].
    + split.
      * rewrite Qcplus_0_l. exact Hlo.
      * rewrite Qcplus_0_l. rewrite <- (Qcplus_0_l (Qcsum (zip_with _ _ _))).
        apply Qcplus_le_compat; [apply Qcabs_nonneg | exact Hhi].
Qed.

(** X4: for sizes that are not negative and not both zero, and histograms
    of equal length whose L1 norms are at most 1, the weighted intersection
    returns a value between 0 and 1. *)
Theorem intersection_between_0_and_1 (ha : list Qc) (a : Qc) (hb : list Qc) (b : Qc) :
  length ha = length hb ->
  0 ≤ a -> 0 ≤ b -> a + b <> 0 ->
  norm1 ha ≤ 1 -> norm1 hb ≤ 1 ->
  exists v, normalized_histogram_intersection ha a hb b = Ok v /\ 0 ≤ v /\ v ≤ 1.
Proof.
  intros E Ha Hb Hab Hna Hnb.
  rewrite intersection_equal_length by done. unfold py_float_div.
  destruct (decide (a + b = 0)) as [|_]; [done|].
  eexists. split; [done|].
  destruct (joint_support_bounds ha hb) as [Ha0 Ha1].
  destruct (joint_support_bounds hb ha) as [Hb0 Hb1].
  set (SA := Qcsum (joint_support ha hb)) in *.
  set (SB := Qcsum (joint_support hb ha)) in *.
  assert (Hpos : 0 < a + b).
  { destruct (Qcle_lt_or_eq 0 (a + b)) as [|E0]; [by apply Qcplus_nonneg_nonneg|done|].
    by destruct Hab. }
  assert (Hinv : 0 ≤ / (a + b)) by (apply Qclt_le_weak; by apply Qcinv_pos).
  unfold Qcdiv. split.
  - apply Qcmult_nonneg_nonneg; [|done].
    apply Qcplus_nonneg_nonneg; by apply Qcmult_nonneg_nonneg.
  - replace 1 with ((a + b) * / (a + b)) by (by field).
    apply Qcmult_le_compat_r; [|done].
    apply Qcplus_le_compat.
    + rewrite <- (Qcmult_1_r a) at 2. apply Qcmult_le_mono_nonneg_l; [done|].
      by etrans.
    + rewrite <- (Qcmult_1_r b) at 2. apply Qcmult_le_mono_nonneg_l; [done|].
      by etrans.
Qed.

(** X5: when no bin is strictly positive in both histograms the weighted
    intersection is 0, whatever the sizes, as long as they do not sum to
    zero. *)
Theorem intersection_disjoint_support (ha : list Qc) (a : Qc) (hb : list Qc) (b : Qc) :
  Forall2 (fun x y => ~ (0 < x /\ 0 < y)) ha hb ->
  a + b <> 0 ->
  normalized_histogram_intersection ha a hb b = Ok 0.
Proof.
  intros HF Hab. pose proof (Forall2_length _ _ _ HF) as E.
  rewrite intersection_equal_length by done. unfold py_float_div.
  destruct (decide (a + b = 0)) as [|_]; [done|]. f_equal.
  assert (Hz : Qcsum (joint_support ha hb) = 0 /\ Qcsum (joint_support hb ha) = 0).
  { clear -HF. unfold joint_support.
    induction HF as [|x y ha hb Hxy _ [IHa IHb]]; simpl; [done|].
    rewrite !Qcsum_cons, IHa, IHb.
    destruct (decide (0 < x /\ 0 < y)), (decide (0 < y /\ 0 < x)); tauto. }
  destruct Hz as [-> ->]. by field.
Qed.

Lemma intersection_between_0_and_1_witness :
  exists v, normalized_histogram_intersection [q 1 2; q 1 2; 0] (q 3 1) [q 1 4; 0; q 3 4] 1
            = Ok v /\ 0 ≤ v /\ v ≤ 1.
Proof.
  apply intersection_between_0_and_1; [reflexivity | by_compute ..].
Defined.

Lemma intersection_disjoint_support_witness :
  normalized_histogram_intersection [q 1 2; 0] (q 3 1) [0; q 3 4] 1 = Ok 0.
Proof.
  apply intersection_disjoint_support; [|by_compute].
  repeat constructor; by_compute.
Defined.

(** ** More on the colour histograms *)

Lemma Qcsum_nonneg (v : list Qc) : Forall (fun x => 0 ≤ x) v -> 0 ≤ Qcsum v.
Proof.
  induction 1 as [|x v Hx _ IH]; [apply Qcle_refl|].
  rewrite Qcsum_cons. by apply Qcplus_nonneg_nonneg.
Qed.

Lemma norm1_nonneg_cells (v : list Qc) : Forall (fun x => 0 ≤ x) v -> norm1 v = Qcsum v.
Proof.
  unfold norm1. induction 1 as [|x v Hx _ IH]; [done|].
  simpl. rewrite !Qcsum_cons, IH, Qcabs_pos; done.
Qed.

Lemma cell_le_sum (v : list Qc) (x : Qc) :
  Forall (fun x => 0 ≤ x) v -> x ∈ v -> x ≤ Qcsum v.
Proof.
  intros Hv Hin. induction Hin as [x v|x y v _ IH]; apply Forall_cons in Hv as [Hy Hv];
    rewrite Qcsum_cons.
  - rewrite <- (Qcplus_0_r x) at 1. apply Qcplus_le_compat; [apply Qcle_refl|].
    by apply Qcsum_nonneg.
  - rewrite <- (Qcplus_0_l x). apply Qcplus_le_compat; [done | by apply IH].
Qed.

(** Dividing non-negative counts that are not all zero by their L1 norm
    gives cells between 0 and 1 that sum to 1. *)
Lemma l1_normalise_nonneg (v : list Qc) :
  Forall (fun x => 0 ≤ x) v ->
  (exists x, x ∈ v /\ x <> 0) ->
  exists w, np_divide v (norm1 v) = map Fin w
    /\ Forall (fun x => 0 ≤ x /\ x ≤ 1) w
    /\ Qcsum w = 1.
Proof.
  intros Hv Hnz. destruct (l1_normalise v Hnz) as [Hdiv Hone].
  destruct Hnz as (x0 & Hin0 & Hx0). pose proof (norm1_pos v x0 Hin0 Hx0) as Hpos.
  assert (Hinv : 0 ≤ 1 / norm1 v).
  { apply Qclt_le_weak. unfold Qcdiv. rewrite Qcmult_1_l. by apply Qcinv_pos. }
  exists (map (fun x => x * (1 / norm1 v)) v). split; [done|]. split.
  - apply Forall_fmap, Forall_forall. intros x Hx. simpl.
    pose proof (proj1 (Forall_forall _ _) Hv x Hx) as Hx0'. split.
    + by apply Qcmult_nonneg_nonneg.
    + assert (E1 : norm1 v * (1 / norm1 v) = 1).
      { field. intros E. rewrite E in Hpos. by apply Qclt_not_eq in Hpos. }
      apply Qcle_trans with (norm1 v * (1 / norm1 v)); [|rewrite E1; apply Qcle_refl].
      apply Qcmult_le_compat_r; [|done].
      rewrite norm1_nonneg_cells by done. by apply cell_le_sum.
  - rewrite <- norm1_nonneg_cells; [done|].
    apply Forall_fmap, Forall_forall. intros x Hx. simpl.
    apply Qcmult_nonneg_nonneg; [|done]. by apply (proj1 (Forall_forall _ _) Hv).
Qed.

Lemma np_divide_zeros (v : list Qc) :
  Forall (fun x => x = 0) v -> np_divide v (norm1 v) = replicate (length v) NaN.
Proof.
  intros Hz. assert (Hn : norm1 v = 0).
  { unfold norm1. induction Hz as [|x v -> _ IH]; [done|].
    simpl. rewrite Qcsum_cons, IH. by_compute. }
  rewrite Hn. unfold np_divide. induction Hz as [|x v -> _ IH]; [done|].
  simpl. rewrite IH.
  - done.
  - unfold norm1 in Hn. simpl in Hn. rewrite Qcsum_cons in Hn.
    replace (Qcabs 0) with 0 in Hn by by_compute. by rewrite Qcplus_0_l in Hn.
Qed.

Section MoreHistogramFacts.

Variable calcHist :
  Image -> list Z -> option (array2 Z) -> list Z -> list Z -> result ndarray.

(** X6: when the raw histogram has no negative bin and is not all zero, the
    normalized histogram has as many bins, each between 0 and 1, and they
    sum to 1. *)
Theorem normalized_histogram_distribution (im : Image) (channels bins ranges : list Z)
    (mask : option (array2 Z)) (raw : ndarray) :
  get_histogram calcHist im channels bins ranges mask = Ok raw ->
  Forall (fun x => 0 ≤ x) (flatten raw) ->
  (exists x, x ∈ flatten raw /\ x <> 0) ->
  exists hist : list Qc,
    get_normalized_histogram calcHist im channels bins ranges mask = Ok (map Fin hist)
    /\ length hist = length (flatten raw)
    /\ Forall (fun x => 0 ≤ x /\ x ≤ 1) hist
    /\ Qcsum hist = 1.
Proof.
  unfold get_histogram, get_normalized_histogram.
  destruct (check_color_hist_params _ _ _ _ _) as [[]|e]; simpl; [|done].
  intros -> Hpos Hnz. simpl.
  destruct (l1_normalise_nonneg (flatten raw) Hpos Hnz) as (w & Hdiv & Hw & Hsum).
  exists w. rewrite Hdiv. repeat split; try done.
  apply (f_equal length) in Hdiv. unfold np_divide in Hdiv.
  by rewrite !length_map in Hdiv.
Qed.

(** X7: when the raw histogram is all zero the normalized histogram is
    returned all the same, every bin of it [nan]: the division by the zero
    norm raises nothing. *)
Theorem normalized_histogram_of_zeros (im : Image) (channels bins ranges : list Z)
    (mask : option (array2 Z)) (raw : ndarray) :
  get_histogram calcHist im channels bins ranges mask = Ok raw ->
  Forall (fun x => x = 0) (flatten raw) ->
  get_normalized_histogram calcHist im channels bins ranges mask
  = Ok (replicate (length (flatten raw)) NaN).
Proof.
  unfold get_histogram, get_normalized_histogram.
  destruct (check_color_hist_params _ _ _ _ _) as [[]|e]; simpl; [|done].
  intros -> Hz. simpl. by rewrite np_divide_zeros.
Qed.

(** X8: [get_normalized_histogram] raises exactly when [get_histogram]
    does, and the same exception: the normalisation adds no failure. *)
Theorem histograms_fail_alike (im : Image) (channels bins ranges : list Z)
    (mask : option (array2 Z)) (e : exn) :
  get_normalized_histogram calcHist im channels bins ranges mask = Raise e
  <-> get_histogram calcHist im channels bins ranges mask = Raise e.
Proof.
  unfold get_histogram, get_normalized_histogram.
  destruct (check_color_hist_params _ _ _ _ _) as [[]|e']; simpl.
  - destruct (calcHist _ _ _ _ _); simpl; split; congruence.
  - split; congruence.
Qed.

End MoreHistogramFacts.

(** ** The histogram comparison *)

Lemma comparison_methods_lookup (name : string) :
  comparison_methods !! name
  = if decide (name = "correlation"%string) then Some CV_COMP_CORREL
    else if decide (name = "chi-squared"%string) then Some CV_COMP_CHISQR
    else if decide (name = "intersection"%string) then Some CV_COMP_INTERSECT
    else if decide (name = "bhattacharyya"%string) then Some CV_COMP_BHATTACHARYYA
    else None.
Proof.
  unfold comparison_methods. cbn [list_to_map foldr uncurry fst snd].
  repeat (rewrite lookup_insert; destruct (decide (_ = name)) as [<-|?];
          [by repeat (destruct (decide _); [done|]) |]).
  rewrite lookup_empty. by repeat (destruct (decide _); [congruence|]).
Qed.

Section ComparisonFacts.

Variable compareHist : list Qc -> list Qc -> comp_method -> result Qc.

(** X9: [compare_histograms] raises [KeyError] with the method name exactly
    when the name is none of the four keys, whatever the histograms and
    without a call of [compareHist]; for a key it is the call of
    [compareHist] with the method of the key, and the default name is the
    key of the intersection. *)
Theorem compare_histograms_unknown_method (ha hb : list Qc) (name : string) :
  (name ∉ known_methods
   <-> compare_histograms compareHist ha hb name = Throw (KeyErrorName name))
  /\ (name ∈ known_methods
      <-> exists m, comparison_methods !! name = Some m
            /\ compare_histograms compareHist ha hb name
               = of_result (compareHist ha hb m))
  /\ compare_histograms compareHist ha hb default_method_name
     = of_result (compareHist ha hb CV_COMP_INTERSECT).
Proof.
  unfold compare_histograms, name_get, known_methods.
  rewrite comparison_methods_lookup. rewrite !elem_of_cons, elem_of_nil.
  split; [|split; [|reflexivity]].
  - repeat (destruct (decide (name = _)) as [->|?];
            [simpl; split; [tauto | by destruct (compareHist _ _ _)] |]).
    simpl. split; [done | tauto].
  - repeat (destruct (decide (name = _)) as [->|?];
            [simpl; split; [eauto | tauto] |]).
    simpl. split; [tauto | by intros (m & ? & _)].
Qed.

End ComparisonFacts.

(** ** The per-colour histograms *)

Section RgbFacts.

Variable calcHist :
  Image -> list Z -> option (array2 Z) -> list Z -> list Z -> result ndarray.

(** The loop over the colours and the three lookups amount to the three
    calls in the order of the channels 0, 1, 2. *)
Lemma get_rgb_histograms_calls (im : Image) (bins ranges : list Z)
    (mask : option (array2 Z)) :
  get_rgb_histograms calcHist im bins ranges mask
  = (b <- of_result (get_normalized_histogram calcHist im [0%Z] bins ranges mask) ;
     g <- of_result (get_normalized_histogram calcHist im [1%Z] bins ranges mask) ;
     r <- of_result (get_normalized_histogram calcHist im [2%Z] bins ranges mask) ;
     Return (r, g, b))%outcome.
Proof.
  unfold get_rgb_histograms.
  cbv [enumerate imap ofor_each compose Z.of_nat Pos.of_succ_nat Pos.succ].
  destruct (get_normalized_histogram calcHist im [0%Z] _ _ _) as [b|e]; [|done].
  destruct (get_normalized_histogram calcHist im [1%Z] _ _ _) as [g|e]; [|done].
  destruct (get_normalized_histogram calcHist im [2%Z] _ _ _) as [r|e]; [|done].
  reflexivity.
Qed.

(** X10: [get_rgb_histograms] returns [(r, g, b)] exactly when the
    normalized histograms of the channels 0, 1 and 2 are [b], [g] and [r]:
    the first channel comes last. *)
Theorem rgb_histograms_order (im : Image) (bins ranges : list Z)
    (mask : option (array2 Z)) (r g b : list npfloat) :
  get_rgb_histograms calcHist im bins ranges mask = Return (r, g, b)
  <-> get_normalized_histogram calcHist im [0%Z] bins ranges mask = Ok b
      /\ get_normalized_histogram calcHist im [1%Z] bins ranges mask = Ok g
      /\ get_normalized_histogram calcHist im [2%Z] bins ranges mask = Ok r.
Proof.
  rewrite get_rgb_histograms_calls.
  destruct (get_normalized_histogram calcHist im [0%Z] _ _ _) as [b'|e]; simpl.
  2:{ split; [done | by intros [? _]]. }
  destruct (get_normalized_histogram calcHist im [1%Z] _ _ _) as [g'|e]; simpl.
  2:{ split; [done | by intros (_ & ? & _)]. }
  destruct (get_normalized_histogram calcHist im [2%Z] _ _ _) as [r'|e]; simpl.
  2:{ split; [done | by intros (_ & _ & ?)]. }
  split; [by intros [= -> -> ->] | by intros ([= ->] & [= ->] & [= ->])].
Qed.

(** X11: what [get_rgb_histograms] raises is what
    [get_normalized_histogram] raises for the first of the channels 0, 1, 2
    on which it fails, never a [KeyError] of the colour dictionary. *)
Theorem rgb_histograms_errors (im : Image) (bins ranges : list Z)
    (mask : option (array2 Z)) (e : pyexn) :
  get_rgb_histograms calcHist im bins ranges mask = Throw e ->
  exists (i : Z) (e' : exn),
    e = Builtin e' /\ (0 <= i <= 2)%Z
    /\ get_normalized_histogram calcHist im [i] bins ranges mask = Raise e'
    /\ forall j, (0 <= j < i)%Z ->
         exists h, get_normalized_histogram calcHist im [j] bins ranges mask = Ok h.
Proof.
  rewrite get_rgb_histograms_calls.
  destruct (get_normalized_histogram calcHist im [0%Z] _ _ _) as [b|e0] eqn:E0; simpl.
  2:{ intros [= <-]. exists 0%Z, e0. repeat split; try done. intros; lia. }
  destruct (get_normalized_histogram calcHist im [1%Z] _ _ _) as [g|e1] eqn:E1; simpl.
  2:{ intros [= <-]. exists 1%Z, e1. repeat split; try done.
      intros j Hj. assert (j = 0)%Z as -> by lia. eauto. }
  destruct (get_normalized_histogram calcHist im [2%Z] _ _ _) as [r|e2] eqn:E2; simpl.
  2:{ intros [= <-]. exists 2%Z, e2. repeat split; try done.
      intros j Hj. assert (j = 0 \/ j = 1)%Z as [-> | ->] by lia; eauto. }
  done.
Qed.

(** X12: on an image of fewer than three rows [get_rgb_histograms] raises,
    whatever the binning routine: the validator bounds the channel index by
    the number of rows. *)
Theorem rgb_histograms_need_three_rows (im : Image) (bins ranges : list Z)
    (mask : option (array2 Z)) :
  (dim0 im < 3)%nat ->
  exists e, get_rgb_histograms calcHist im bins ranges mask = Throw (Builtin e).
Proof.
  intros Hrows. rewrite get_rgb_histograms_calls.
  assert (Hbad : forall i, (Z.of_nat (dim0 im) <= i)%Z ->
            exists e, get_normalized_histogram calcHist im [i] bins ranges mask = Raise e).
  { intros i Hi. unfold get_normalized_histogram.
    destruct (check_color_hist_params im [i] bins ranges mask) as [[]|e] eqn:E; [|by eexists].
    apply check_color_hist_params_accepts in E as [(m & [= <-] & Hm) _]. simpl in Hm. lia. }
  destruct (get_normalized_histogram calcHist im [0%Z] _ _ _) as [b|e0]; [|by eexists].
  destruct (get_normalized_histogram calcHist im [1%Z] _ _ _) as [g|e1]; [|by eexists].
  destruct (Hbad 2%Z) as [e2 ->]; [lia|]. by eexists.
Qed.

End RgbFacts.

Lemma rgb_histograms_order_witness :
  get_rgb_histograms calcHist1 rgb_patch [2%Z] default_rgb_ranges None
  = Return ([Fin 1; Fin 0], [Fin 0; Fin 1], [Fin (q 2 3); Fin (q 1 3)]).
Proof.
  apply rgb_histograms_order. repeat split; by_compute.
Defined.

(** ** More on the descriptor *)

Lemma square_nonneg (x : Qc) : 0 ≤ x * x.
Proof.
  destruct (Qclt_le_dec x 0) as [Hx|Hx].
  - replace (x * x) with ((- x) * (- x)) by ring.
    assert (0 ≤ - x).
    { apply Qclt_le_weak in Hx. apply Qcopp_le_compat in Hx.
      by replace (- 0) with 0 in Hx by ring. }
    by apply Qcmult_nonneg_nonneg.
  - by apply Qcmult_nonneg_nonneg.
Qed.

Lemma sum_squares_zero (v : list Qc) :
  Qcsum (map (fun x => x * x) v) = 0 <-> Forall (fun x => x = 0) v.
Proof.
  induction v as [|x v IH]; simpl.
  - split; [constructor | done].
  - rewrite Qcsum_cons, Forall_cons, <- IH. split.
    + intros E.
      assert (Hs : 0 ≤ Qcsum (map (fun x => x * x) v)).
      { apply Qcsum_nonneg, Forall_fmap, Forall_forall. intros y _. apply square_nonneg. }
      pose proof (square_nonneg x) as Hx.
      assert (Hx0 : x * x = 0).
      { apply Qcle_antisym; [|done]. rewrite <- E.
        rewrite <- (Qcplus_0_r (x * x)) at 1. apply Qcplus_le_compat; [apply Qcle_refl|done]. }
      split.
      * by apply Qcmult_integral in Hx0 as [|].
      * rewrite Hx0, Qcplus_0_l in E. done.
    + intros [-> ->]. ring.
Qed.

Lemma norm2_is_zero_spec (v : list Qc) : norm2_is_zero v = true <-> Forall (fun x => x = 0) v.
Proof. unfold norm2_is_zero. rewrite bool_decide_eq_true. apply sum_squares_zero. Qed.

Lemma silent_mret {A} (a : A) : silent (mret a).
Proof. done. Qed.

Lemma silent_lift {A} (r : result A) : silent (lift r).
Proof. done. Qed.

Lemma silent_deref (l : loc) : silent (deref l).
Proof. intros s. unfold deref. by destruct (heap s !! l). Qed.

Lemma silent_mbind {A B} (m : M A) (k : A -> M B) :
  silent m -> (forall a, silent (k a)) -> silent (mbind m k).
Proof.
  intros Hm Hk s. unfold mbind. specialize (Hm s).
  destruct (m s) as [[a|e] s1]; simpl in *; [|done].
  by rewrite Hk.
Qed.

Lemma silent_for_each {A T} (xs : list A) (body : A -> T -> M T) (acc : T) :
  (forall x acc, silent (body x acc)) -> silent (for_each xs body acc).
Proof.
  intros Hb. revert acc. induction xs as [|x xs IH]; intros acc; simpl.
  - apply silent_mret.
  - apply silent_mbind; [apply Hb | apply IH].
Qed.

Lemma silent_np_copy (l : loc) : silent (np_copy l).
Proof. unfold np_copy. apply silent_mbind; [apply silent_deref | done]. Qed.

Lemma silent_getitem_last (l : loc) (k : nat) : silent (getitem_last l k).
Proof. apply silent_mbind; [apply silent_deref | intros; apply silent_lift]. Qed.

Lemma silent_setitem_last (l : loc) (k : nat) (v : array2 Z) :
  silent (setitem_last l k v).
Proof.
  unfold setitem_last.
  apply silent_mbind; [apply silent_deref | intros a].
  apply silent_mbind; [apply silent_lift | done].
Qed.

Ltac silent_step :=
  first
    [ apply silent_mret
    | apply silent_lift
    | apply silent_deref
    | apply silent_np_copy
    | apply silent_getitem_last
    | apply silent_setitem_last
    | apply silent_for_each; intros
    | apply silent_mbind; [|intros]
    | match goal with
      | |- silent (match ?x with _ => _ end) => destruct x
      end ].

Lemma filter_none {A} (P : A -> Prop) `{forall x, Decision (P x)} (l : list A) :
  Forall (fun x => ~ P x) l -> filter P l = [].
Proof.
  induction 1 as [|x l Hx _ IH]; [done|].
  rewrite filter_cons. by destruct (decide (P x)).
Qed.

Lemma np_max_upper (l : list Qc) (top : Qc) :
  np_max l = Ok top -> top ∈ l /\ forall x, x ∈ l -> x ≤ top.
Proof.
  destruct l as [|x0 l]; [done|]. simpl. intros [= <-].
  revert x0. induction l as [|y l IH]; intros x0; simpl.
  - split; [left|]. intros x ->%list_elem_of_singleton. apply Qcle_refl.
  - destruct (IH (if decide (x0 < y) then y else x0)) as [Hin Hub]. split.
    + apply elem_of_cons in Hin as [->|Hin].
      * destruct (decide (x0 < y)); [right; left | left].
      * by do 2 right.
    + intros x [->|[->|Hx]%elem_of_cons]%elem_of_cons.
      * etrans; [|apply Hub; left]. destruct (decide (x0 < y)); [|apply Qcle_refl].
        by apply Qclt_le_weak.
      * etrans; [|apply Hub; left]. destruct (decide (x0 < y)) as [|Hn]; [apply Qcle_refl|].
        by apply Qcnot_lt_le.
      * apply Hub. by right.
Qed.

Lemma mbind_raise {A B} (m : M A) (k : A -> M B) (s s1 : state) (e : exn) :
  m s = (Raise e, s1) -> mbind m k s = (Raise e, s1).
Proof. intros H. unfold mbind. by rewrite H. Qed.

(** One round of the masking loop: it raises, with [IndexError] when the
    image has no channel [i], or it leaves the image where it is and a copy
    at [im]. *)
Lemma mask_step_outcome (image im : loc) (img : Image) (mk : array2 Z) (i : nat)
    (s : state) :
  image <> im -> heap s !! image = Some img -> is_Some (heap s !! im) ->
  let r := (channel <- getitem_last image i ;;
            masked <- lift (broadcast2 Z.mul mk channel) ;;
            setitem_last im i masked)%M s in
  ((dim2 img <= i)%nat -> r = (Raise IndexError, s))
  /\ ((exists e s', r = (Raise e, s') /\ masking_error e)
      \/ (exists s', r = (Ok tt, s') /\ heap s' !! image = Some img
                     /\ is_Some (heap s' !! im))).
Proof.
  intros Hne Himg [w Hw]. simpl. unfold getitem_last.
  destruct (decide (i < dim2 img)%nat) as [Hi|Hi].
  - split; [lia|].
    rewrite (mbind_run _ _ _ _ _ (getitem_last_run _ _ _ _ Himg Hi)).
    destruct (broadcast2 Z.mul mk (last_slice img i)) as [masked|e] eqn:Eb.
    2:{ left. exists e, s. split; [done|]. right.
        unfold broadcast2 in Eb. repeat case_match; try done.
        all: injection Eb as <-; eauto. }
    rewrite (mbind_run _ _ _ _ _ (lift_run _ _)). unfold setitem_last.
    rewrite (mbind_run _ _ _ _ _ (deref_run _ _ _ Hw)).
    destruct (set_last to_uint8 w i masked) as [w'|e] eqn:Es.
    + right. rewrite (mbind_run _ _ _ _ _ (lift_run _ _)). eexists. split; [done|].
      simpl. rewrite lookup_insert_ne by done. rewrite lookup_insert_eq. eauto.
    + left. exists e, s. split; [done|].
      unfold set_last in Es. repeat case_match; try done.
      all: injection Es as <-; unfold masking_error; eauto.
  - assert (Hr : mbind (deref image) (fun a => lift (get_last a i)) s = (Raise IndexError, s)).
    { rewrite (mbind_run _ _ _ _ _ (deref_run _ _ _ Himg)).
      unfold get_last. by destruct (decide _). }
    rewrite (mbind_raise _ _ _ _ _ Hr). split; [done|].
    left. exists IndexError, s. split; [done | by left].
Qed.

(** Writing a channel multiplied by a mask of ones back gives the image. *)
Lemma ones_mask_round (img : Image) (i : nat) :
  wf_array3 img -> uint8_samples img -> (i < dim2 img)%nat ->
  exists masked,
    broadcast2 Z.mul (blank_mask (dim0 img) (dim1 img)) (last_slice img i) = Ok masked
    /\ set_last to_uint8 img i masked = Ok img.
Proof.
  intros W U Hi. rewrite (broadcast2_same_shape Z.mul) by done.
  eexists. split; [done|]. unfold set_last. cbn [rows2 cols2 blank_mask].
  destruct (decide (i < dim2 img)%nat); [|done].
  destruct (decide _) as [_|Hn]; [|tauto].
  destruct img as [d0 d1 d2 cells]. unfold wf_array3, uint8_samples in *. simpl in *.
  do 2 f_equal. apply list_eq. intros j. rewrite list_lookup_imap.
  destruct (cells !! j) as [x|] eqn:Hx; [|done]. simpl. f_equal.
  destruct (decide (j mod d2 = i)%nat) as [Hj|]; [|done].
  pose proof (lookup_lt_Some _ _ _ Hx) as Hlt. rewrite W in Hlt.
  assert (Hp : (j / d2 < d0 * d1)%nat) by (apply Nat.Div0.div_lt_upper_bound; lia).
  rewrite bcell_flat by (simpl; done || lia). cbn [cells2].
  rewrite (lookup_total_tabulate (A:=Z)) by done.
  rewrite lookup_total_replicate_2 by done.
  unfold last_slice. cbn [cells2 dim0 dim1 dim2 cells3].
  rewrite (lookup_total_tabulate (A:=Z)) by done.
  replace (j / d2 * d2 + i)%nat with j by (pose proof (Nat.div_mod_eq j d2); lia).
  rewrite (list_lookup_total_correct _ _ _ Hx). unfold to_uint8.
  rewrite Z.mul_1_l. apply Z.mod_small.
  apply (proj1 (Forall_forall _ _) U). by eapply list_elem_of_lookup_2.
Qed.

Lemma nat_sum_app (l1 l2 : list nat) : nat_sum (l1 ++ l2) = (nat_sum l1 + nat_sum l2)%nat.
Proof. unfold nat_sum. induction l1 as [|x l1 IH]; simpl; lia. Qed.

(** Counting with predicates of which at most one holds of an element
    counts every element at most once. *)
Lemma nat_sum_indicators_one (Q : nat -> Prop) `{forall k, Decision (Q k)} (B : nat) :
  (forall k k', (k < B)%nat -> (k' < B)%nat -> Q k -> Q k' -> k = k') ->
  (nat_sum (map (fun k => if decide (Q k) then 1%nat else 0%nat) (seq 0 B)) <= 1)%nat.
Proof.
  induction B as [|B IH]; intros Hd; [unfold nat_sum; simpl; lia|].
  rewrite seq_S, map_app, nat_sum_app. cbn [map Nat.add]. unfold nat_sum at 2. cbn [foldr].
  destruct (decide (Q B)) as [HB|_].
  - assert (Hz : nat_sum (map (fun k => if decide (Q k) then 1%nat else 0%nat) (seq 0 B))
                 = 0%nat).
    { clear IH. assert (Hno : forall k, (k < B)%nat -> ~ Q k).
      { intros k Hk HQ. assert (k = B) by (apply Hd; [lia | lia | done | done]). lia. }
      clear Hd HB. induction B as [|B IH]; [done|].
      rewrite seq_S, map_app, nat_sum_app. cbn [map Nat.add]. unfold nat_sum at 2.
      cbn [foldr]. rewrite IH by (intros; apply Hno; lia).
      destruct (decide (Q B)) as [HB|_]; [|done]. by apply Hno in HB; [|lia]. }
    lia.
  - assert ((nat_sum (map (fun k => if decide (Q k) then 1%nat else 0%nat) (seq 0 B)) <= 1)%nat).
    { apply IH. intros k k' ? ? ? ?. apply Hd; done || lia. }
    lia.
Qed.

Lemma nat_sum_map_add {A} (f g : A -> nat) (l : list A) :
  nat_sum (map (fun x => f x + g x)%nat l) = (nat_sum (map f l) + nat_sum (map g l))%nat.
Proof. unfold nat_sum. induction l as [|x l IH]; simpl; lia. Qed.

Lemma counts_disjoint {A} (P : nat -> A -> Prop) `{forall k x, Decision (P k x)}
    (l : list A) (B : nat) :
  (forall x k k', (k < B)%nat -> (k' < B)%nat -> P k x -> P k' x -> k = k') ->
  (nat_sum (map (fun k => length (filter (P k) l)) (seq 0 B)) <= length l)%nat.
Proof.
  intros Hd. induction l as [|x l IH].
  - assert (E : nat_sum (map (fun k => length (filter (P k) [])) (seq 0 B)) = 0%nat).
    { unfold nat_sum. induction (seq 0 B) as [|k ks IHk]; [done|].
      cbn [map foldr]. by rewrite IHk. }
    rewrite E. simpl. lia.
  - assert (E : map (fun k => length (filter (P k) (x :: l))) (seq 0 B)
                = map (fun k => (if decide (P k x) then 1%nat else 0%nat)
                                + length (filter (P k) l))%nat (seq 0 B)).
    { apply map_ext. intros k. rewrite filter_cons. by destruct (decide (P k x)). }
    rewrite E, nat_sum_map_add. cbn [length].
    pose proof (nat_sum_indicators_one (fun k => P k x) B (Hd x)). lia.
Qed.

Lemma Qcsum_counts (f : nat -> nat) (l : list nat) :
  Qcsum (map (fun k => Qc_of_Z (Z.of_nat (f k))) l)
  = Qc_of_Z (Z.of_nat (nat_sum (map f l))).
Proof.
  induction l as [|k l IH]; simpl.
  - symmetry. apply Z2Qc_inj_0.
  - rewrite Qcsum_cons, IH, <- Z2Qc_inj_add. f_equal. unfold nat_sum. simpl. lia.
Qed.

Lemma bins_disjoint (no_bins : Z) (o m t : Qc) (k k' : nat) :
  (0 < no_bins)%Z ->
  pixel_in_bin o m (bin_boundary no_bins k) (bin_boundary no_bins (S k)) t ->
  pixel_in_bin o m (bin_boundary no_bins k') (bin_boundary no_bins (S k')) t ->
  k = k'.
Proof.
  intros Hn (Hlo & Hhi & _) (Hlo' & Hhi' & _).
  destruct (Nat.lt_trichotomy k k') as [Hlt|[->|Hlt]]; [|done|]; exfalso.
  - apply (Qclt_not_le _ _ (Qclt_trans _ _ _ Hlo' Hhi)).
    apply bin_boundary_mono; [done|lia].
  - apply (Qclt_not_le _ _ (Qclt_trans _ _ _ Hlo Hhi')).
    apply bin_boundary_mono; [done|lia].
Qed.

Section MoreDescriptorFacts.

Variable G : array2 Z -> Qc -> result gradient.

Lemma sift_histogram_silent (image : loc) (sigma : Qc) (no_bins : Z) (th : Qc)
    (mask : option (array2 Z)) :
  silent (sift_histogram G image sigma no_bins th mask).
Proof. unfold sift_histogram. repeat silent_step. Qed.

(** X13: whatever its arguments, [get_sift_features] prints nothing, or
    the one diagnostic line of the zero norm, and that only when it
    returns. *)
Theorem prints_at_most_the_diagnostic (image : loc) (sigma : Qc) (no_bins : Z) (th : Qc)
    (mask : option (array2 Z)) (s : state) :
  stdout (get_sift_features G image sigma no_bins th mask s).2 = stdout s
  \/ (stdout (get_sift_features G image sigma no_bins th mask s).2
      = stdout s ++ [diagnostic]
      /\ exists v, (get_sift_features G image sigma no_bins th mask s).1 = Ok v).
Proof.
  unfold get_sift_features, mbind.
  pose proof (sift_histogram_silent image sigma no_bins th mask s) as H.
  destruct (sift_histogram G image sigma no_bins th mask s) as [[hist|e] s1]; simpl in *.
  - destruct (norm2_is_zero hist); simpl; [right | by left].
    rewrite H. split; [done | by eexists].
  - by left.
Qed.


(** What the function returns and prints once the counts are known. *)
Lemma get_sift_features_of_counts (image : loc) (sigma : Qc) (no_bins : Z) (th : Qc)
    (mask : option (array2 Z)) (s s0 : state) (hist : list Qc) :
  sift_histogram G image sigma no_bins th mask s = (Ok hist, s0) ->
  stdout s0 = stdout s
  /\ (Forall (fun x => x = 0) hist ->
      get_sift_features G image sigma no_bins th mask s
      = (Ok (replicate (length hist) NaN),
         State (heap s0) (stdout s ++ [diagnostic])))
  /\ (~ Forall (fun x => x = 0) hist ->
      get_sift_features G image sigma no_bins th mask s
      = (Ok (np_divide hist (norm1 hist)), s0)).
Proof.
  intros Hrun.
  pose proof (sift_histogram_silent image sigma no_bins th mask s) as Hout.
  rewrite Hrun in Hout. simpl in Hout. split; [done|].
  unfold get_sift_features. rewrite (mbind_run _ _ _ _ _ Hrun). unfold mbind.
  split; intros Hz.
  - rewrite (proj2 (norm2_is_zero_spec hist) Hz). simpl.
    by rewrite np_divide_zeros, Hout.
  - destruct (norm2_is_zero hist) eqn:E; [|done].
    by apply norm2_is_zero_spec in E.
Qed.

(** Every cell of the counts is the count of a bin of a channel. *)
Lemma sift_histogram_cells (image : loc) (sigma : Qc) (no_bins : Z) (th : Qc)
    (mask : option (array2 Z)) (s : state) (img : Image) :
  same_shape_gradients G ->
  heap s !! image = Some img ->
  (0 < dim0 img)%nat -> (0 < dim1 img)%nat -> (0 < no_bins)%Z ->
  mask_fits img mask ->
  exists (work : Image) (hist : list Qc) (s0 : state),
    sift_histogram G image sigma no_bins th mask s = (Ok hist, s0)
    /\ length hist = (dim2 img * Z.to_nat no_bins)%nat
    /\ forall x, x ∈ hist ->
         exists ch k g top,
           (ch < dim2 img)%nat /\ (k < Z.to_nat no_bins)%nat
           /\ G (last_slice work ch) sigma = Ok g
           /\ gradient_fits g (dim0 img) (dim1 img)
           /\ np_max (cells2 (mag g)) = Ok top
           /\ x = bin_count g (th * top) (bin_boundary no_bins k)
                    (bin_boundary no_bins (S k)) (dim0 img * dim1 img).
Proof.
  intros HG Himg H0 H1 Hn Hmask.
  destruct (sift_histogram_counts G image sigma no_bins th mask s img HG Himg H0 H1 Hn Hmask)
    as (work & hist & s0 & Hrun & Hd0 & Hd1 & Hd2 & _ & Hlen & Hcounts).
  exists work, hist, s0. split; [done|]. split; [done|].
  intros x [i Hi]%list_elem_of_lookup.
  pose proof (lookup_lt_Some _ _ _ Hi) as Hlt. rewrite Hlen in Hlt.
  set (B := Z.to_nat no_bins) in *.
  assert (HB : (0 < B)%nat) by (unfold B; lia).
  assert (Hch : (i / B < dim2 img)%nat) by (apply Nat.Div0.div_lt_upper_bound; lia).
  assert (Hk : (i mod B < B)%nat) by (apply Nat.mod_upper_bound; lia).
  destruct (Hcounts (i / B)%nat Hch) as (g & top & Hg & Htop & Hbins).
  specialize (Hbins (i mod B)%nat Hk).
  replace (i / B * B + i mod B)%nat with i in Hbins
    by (pose proof (Nat.div_mod_eq i B); lia).
  assert (Hfits : gradient_fits g (dim0 img) (dim1 img)).
  { destruct (HG (last_slice work (i / B)) sigma (wf_last_slice _ _))
      as (g' & Hg' & ? & ? & ? & ? & ? & ?).
    assert (g' = g) as -> by congruence. simpl in *.
    unfold gradient_fits. repeat split; congruence. }
  exists (i / B)%nat, (i mod B)%nat, g, top.
  split; [done|]. split; [done|]. split; [done|]. split; [done|]. split; [done|].
  congruence.
Qed.

Lemma bin_count_nonneg (g : gradient) (t lo hi : Qc) (pixels : nat) :
  0 ≤ bin_count g t lo hi pixels.
Proof.
  unfold bin_count. rewrite <- Z2Qc_inj_0. apply (proj1 (Z2Qc_inj_le _ _)). lia.
Qed.





(** X16: with a mask, an image of fewer than three channels makes
    [get_sift_features] raise in the masking loop, which runs over the
    channels 0, 1, 2: an [IndexError], or the broadcast error of an earlier
    channel. *)
Theorem mask_needs_three_channels (image : loc) (sigma : Qc) (no_bins : Z) (th : Qc)
    (mk : array2 Z) (s : state) (img : Image) :
  heap s !! image = Some img ->
  (dim2 img < 3)%nat ->
  exists e s',
    get_sift_features G image sigma no_bins th (Some mk) s = (Raise e, s')
    /\ masking_error e.
Proof.
  intros Himg Hc.
  assert (exists e s', sift_histogram G image sigma no_bins th (Some mk) s = (Raise e, s')
                       /\ masking_error e) as (e & s' & Hrun & He).
  { unfold sift_histogram.
    rewrite (mbind_run _ _ _ _ _ (np_copy_run _ _ _ Himg)).
    pose proof (fresh_loc_ne _ _ _ Himg) as Hne.
    set (im := fresh (dom (heap s))) in *.
    set (s1 := State (<[im := img]> (heap s)) (stdout s)).
    assert (Himg1 : heap s1 !! image = Some img) by (simpl; by rewrite lookup_insert_ne).
    assert (Him1 : is_Some (heap s1 !! im)) by (simpl; rewrite lookup_insert_eq; eauto).
    assert (Hloop : exists e s',
      for_each (seq 0 3)
        (fun i _ =>
           channel <- getitem_last image i ;;
           masked <- lift (broadcast2 Z.mul mk channel) ;;
           setitem_last im i masked)%M tt s1 = (Raise e, s') /\ masking_error e).
    { cbn [seq for_each].
      destruct (mask_step_outcome image im img mk 0 s1 Hne Himg1 Him1) as [Hs0 [Hr|Hok]].
      { destruct Hr as (e & s' & Hr & He). rewrite (mbind_raise _ _ _ _ _ Hr). eauto. }
      destruct Hok as (s2 & Hr0 & Himg2 & Him2).
      assert (Hc0 : (0 < dim2 img)%nat).
      { destruct (decide (0 < dim2 img)%nat); [done|].
        simpl in Hs0. rewrite Hs0 in Hr0 by lia. done. }
      rewrite (mbind_run _ _ _ _ _ Hr0).
      destruct (mask_step_outcome image im img mk 1 s2 Hne Himg2 Him2) as [Hs1 [Hr|Hok]].
      { destruct Hr as (e & s' & Hr & He). rewrite (mbind_raise _ _ _ _ _ Hr). eauto. }
      destruct Hok as (s3 & Hr1 & Himg3 & Him3).
      assert (Hc1 : (1 < dim2 img)%nat).
      { destruct (decide (1 < dim2 img)%nat); [done|].
        simpl in Hs1. rewrite Hs1 in Hr1 by lia. done. }
      rewrite (mbind_run _ _ _ _ _ Hr1).
      destruct (mask_step_outcome image im img mk 2 s3 Hne Himg3 Him3) as [Hs2 _].
      simpl in Hs2. assert (Hge : (dim2 img <= 2)%nat) by lia.
      rewrite (mbind_raise _ _ _ _ _ (Hs2 Hge)).
      exists IndexError, s3. split; [done | by left]. }
    destruct Hloop as (e & s' & Hloop & He).
    rewrite (mbind_raise _ _ _ _ _ Hloop). eauto. }
  exists e, s'. split; [|done].
  unfold get_sift_features. by rewrite (mbind_raise _ _ _ _ _ Hrun).
Qed.


(** X17: with [no_bins = 0] the descriptor raises [ZeroDivisionError] at
    the computation of the step, and with a negative [no_bins] the
    [ValueError] of [np.zeros] for a negative dimension. *)
Theorem non_positive_bins_raise (image : loc) (sigma : Qc) (no_bins : Z) (th : Qc)
    (mask : option (array2 Z)) (s : state) (img : Image) :
  same_shape_gradients G ->
  heap s !! image = Some img ->
  (0 < dim0 img)%nat -> (0 < dim1 img)%nat -> (0 < dim2 img)%nat ->
  mask_fits img mask ->
  (no_bins <= 0)%Z ->
  exists s',
    get_sift_features G image sigma no_bins th mask s
    = (Raise (if decide (no_bins = 0)%Z then ZeroDivisionError
              else ValueError NegativeDimensions), s').
Proof.
  intros HG Himg H0 H1 H2 Hmask Hn.
  assert (exists s', sift_histogram G image sigma no_bins th mask s
    = (Raise (if decide (no_bins = 0)%Z then ZeroDivisionError
              else ValueError NegativeDimensions), s')) as [s' Hrun].
  { unfold sift_histogram.
    rewrite (mbind_run _ _ _ _ _ (np_copy_run _ _ _ Himg)).
    pose proof (fresh_loc_ne _ _ _ Himg) as Hne.
    set (im := fresh (dom (heap s))) in *.
    set (s1 := State (<[im := img]> (heap s)) (stdout s)).
    assert (Himg1 : heap s1 !! image = Some img) by (simpl; by rewrite lookup_insert_ne).
    assert (Him1 : heap s1 !! im = Some img) by (simpl; by rewrite lookup_insert_eq).
    assert (exists s2 w,
      match mask with
      | Some mk =>
          for_each (seq 0 3)
            (fun i _ =>
               channel <- getitem_last image i ;;
               masked <- lift (broadcast2 Z.mul mk channel) ;;
               setitem_last im i masked)%M tt
      | None => mret tt
      end s1 = (Ok tt, s2)
      /\ heap s2 !! im = Some w
      /\ dim0 w = dim0 img /\ dim1 w = dim1 img /\ dim2 w = dim2 img)
      as (s2 & w & Hrun & Hw & Hd0 & Hd1 & Hd2).
    { destruct mask as [mk|].
      - destruct (mask_loop_run image im img mk s1 Hne Himg1)
          as (s2 & Hrun & _ & w & Hw & H); [by exists img | done |].
        by exists s2, w.
      - by exists s1, img. }
    rewrite (mbind_run _ _ _ _ _ Hrun).
    rewrite (mbind_run _ _ _ _ _ (deref_run _ _ _ Hw)). cbv zeta.
    destruct (gradient_loop_run G im w sigma th s2 HG Hw) as ([gr thr] & Hgrad & _);
      [lia | lia |].
    rewrite (mbind_run _ _ _ _ _ Hgrad).
    unfold py_float_div. destruct (decide (no_bins = 0)%Z) as [->|Hnz].
    - destruct (decide (Qc_of_Z 0 = 0)) as [_|Hbad].
      + by eexists.
      + destruct Hbad. apply Z2Qc_inj_0.
    - destruct (decide (Qc_of_Z no_bins = 0)) as [E|_].
      { by apply Qc_of_Z_ne_0 in E. }
      rewrite (mbind_run _ _ _ _ _ (lift_run _ _)).
      destruct (dim2 w) as [|c] eqn:Ec; [lia|].
      cbn [seq for_each]. unfold np_zeros3.
      destruct (decide (no_bins < 0)%Z); [|lia].
      by eexists. }
  exists s'. unfold get_sift_features. by rewrite (mbind_raise _ _ _ _ _ Hrun).
Qed.


(** X18: a mask of ones of the shape of the image changes nothing: the
    descriptor, what is printed and the final store are those of the call
    without a mask. *)
Theorem mask_of_ones_is_no_mask (image : loc) (sigma : Qc) (no_bins : Z) (th : Qc)
    (s : state) (img : Image) :
  heap s !! image = Some img ->
  wf_array3 img -> uint8_samples img -> (3 <= dim2 img)%nat ->
  get_sift_features G image sigma no_bins th
    (Some (blank_mask (dim0 img) (dim1 img))) s
  = get_sift_features G image sigma no_bins th None s.
Proof.
  intros Himg W U Hc.
  assert (Hsame :
    sift_histogram G image sigma no_bins th (Some (blank_mask (dim0 img) (dim1 img))) s
    = sift_histogram G image sigma no_bins th None s).
  { unfold sift_histogram.
    rewrite !(mbind_run _ _ _ _ _ (np_copy_run _ _ _ Himg)).
    pose proof (fresh_loc_ne _ _ _ Himg) as Hne.
    set (im := fresh (dom (heap s))) in *.
    set (s1 := State (<[im := img]> (heap s)) (stdout s)).
    assert (Himg1 : heap s1 !! image = Some img) by (simpl; by rewrite lookup_insert_ne).
    assert (Him1 : heap s1 !! im = Some img) by (simpl; by rewrite lookup_insert_eq).
    assert (Hloop :
      for_each (seq 0 3)
        (fun i _ =>
           channel <- getitem_last image i ;;
           masked <- lift (broadcast2 Z.mul (blank_mask (dim0 img) (dim1 img)) channel) ;;
           setitem_last im i masked)%M tt s1 = (Ok tt, s1)).
    { destruct (for_each_run (fun _ (_ : unit) s' => s' = s1) (seq 0 3)
        (fun i _ =>
           channel <- getitem_last image i ;;
           masked <- lift (broadcast2 Z.mul (blank_mask (dim0 img) (dim1 img)) channel) ;;
           setitem_last im i masked)%M tt s1) as ([] & s' & Hrun & ->); [done| |done].
      intros i x [] s' [-> Hi]%seq_lookup_Some ->. cbv beta.
      assert (Hi' : (i < dim2 img)%nat) by lia.
      rewrite (mbind_run _ _ _ _ _ (getitem_last_run _ _ _ _ Himg1 Hi')).
      destruct (ones_mask_round img i W U Hi') as (masked & -> & Hset).
      rewrite (mbind_run _ _ _ _ _ (lift_run _ _)). unfold setitem_last.
      rewrite (mbind_run _ _ _ _ _ (deref_run _ _ _ Him1)).
      rewrite Hset, (mbind_run _ _ _ _ _ (lift_run _ _)).
      exists tt, s1. split; [|done]. unfold s1. simpl. by rewrite insert_insert_eq. }
    rewrite (mbind_run _ _ _ _ _ Hloop).
    by rewrite (mbind_run (mret tt) _ s1 s1 tt eq_refl). }
  unfold get_sift_features, mbind. by rewrite Hsame.
Qed.



End MoreDescriptorFacts.

(** ** Further examples *)

Lemma gradient_of_abs_same_shape : same_shape_gradients gradient_of_abs.
Proof. intros plane sigma W. eexists. split; [done|]. by apply map2_same_shape. Qed.

Lemma gradient_of_abs_nonneg (plane : array2 Z) (sigma : Qc) (g : gradient) :
  gradient_of_abs plane sigma = Ok g -> Forall (fun m => 0 ≤ m) (cells2 (mag g)).
Proof.
  intros [= <-]. simpl. apply Forall_fmap, Forall_forall. intros z _. apply Qcabs_nonneg.
Qed.

Lemma normalized_histogram_distribution_witness :
  exists hist, get_normalized_histogram calcHist1 flat_patch [0%Z] [2%Z] [0%Z; 256%Z] None
               = Ok (map Fin hist) /\ Qcsum hist = 1.
Proof.
  assert (Hraw : get_histogram calcHist1 flat_patch [0%Z] [2%Z] [0%Z; 256%Z] None
                 = Ok (NdArray [2%nat] [Qc_of_Z 4; 0])) by by_compute.
  destruct (normalized_histogram_distribution calcHist1 _ _ _ _ _ _ Hraw)
    as (hist & Hrun & _ & _ & Hsum).
  - repeat constructor; by_compute.
  - exists (Qc_of_Z 4). split; [left | by_compute].
  - by exists hist.
Defined.

Lemma normalized_histogram_of_zeros_witness :
  get_normalized_histogram calcHist1 flat_patch [0%Z] [2%Z] [100%Z; 200%Z] None
  = Ok [NaN; NaN].
Proof.
  assert (Hraw : get_histogram calcHist1 flat_patch [0%Z] [2%Z] [100%Z; 200%Z] None
                 = Ok (NdArray [2%nat] [0; 0])) by by_compute.
  rewrite (normalized_histogram_of_zeros calcHist1 _ _ _ _ _ _ Hraw); [done|].
  repeat constructor.
Defined.

Lemma rgb_histograms_errors_witness :
  exists i e', (0 <= i <= 2)%Z
    /\ get_normalized_histogram calcHist1 flat_patch [i] [2%Z] default_rgb_ranges None
       = Raise e'.
Proof.
  assert (Hrun : get_rgb_histograms calcHist1 flat_patch [2%Z] default_rgb_ranges None
                 = Throw (Builtin (ValueError (MaxChannelRequested 2 2)))) by by_compute.
  destruct (rgb_histograms_errors calcHist1 _ _ _ _ _ Hrun) as (i & e' & _ & Hi & He & _).
  by exists i, e'.
Defined.

Lemma rgb_histograms_need_three_rows_witness :
  exists e, get_rgb_histograms calcHist1 flat_patch default_rgb_bins default_rgb_ranges None
            = Throw (Builtin e).
Proof. apply rgb_histograms_need_three_rows. simpl. lia. Defined.



Lemma mask_needs_three_channels_witness :
  exists e s', get_sift_features example_gradient 0%nat 1 4 (q 1 10)
                 (Some (blank_mask 2 1)) two_channel_state = (Raise e, s').
Proof.
  destruct (mask_needs_three_channels example_gradient 0%nat 1 4 (q 1 10)
              (blank_mask 2 1) two_channel_state (Array3 2 1 2 [5; 6; 7; 8]%Z))
    as (e & s' & Hrun & _).
  - reflexivity.
  - simpl; lia.
  - by exists e, s'.
Defined.

Lemma non_positive_bins_raise_witness :
  exists s', get_sift_features example_gradient 0%nat 1 0 (q 1 10) None example_state
             = (Raise ZeroDivisionError, s').
Proof.
  destruct (non_positive_bins_raise example_gradient 0%nat 1 0 (q 1 10) None
              example_state example_patch) as (s' & Hrun).
  - apply example_gradient_same_shape.
  - reflexivity.
  - simpl; lia.
  - simpl; lia.
  - simpl; lia.
  - exact I.
  - lia.
  - by exists s'.
Defined.

Lemma mask_of_ones_is_no_mask_witness :
  get_sift_features example_gradient 0%nat 1 4 (q 1 10) (Some (blank_mask 2 2)) example_state
  = get_sift_features example_gradient 0%nat 1 4 (q 1 10) None example_state.
Proof.
  apply (mask_of_ones_is_no_mask example_gradient 0%nat 1 4 (q 1 10) example_state
           example_patch).
  - reflexivity.
  - reflexivity.
  - unfold uint8_samples. simpl. repeat constructor; lia.
  - simpl; lia.
Defined.

